(** * A single-node ledger: transactions, proof-of-work blocks, chain audit

    Shallow embedding of the two JavaScript variants of the ledger:
    - [Main]: [src/blockchain.js], the file that [src/main.js] drives;
    - [Alt]:  the second copy of the same three classes, with a
      six-argument [Block] constructor and a [signature] field that the
      [Transaction] constructor initialises to [null].

    What the code takes from its runtime is modelled once, ahead of both:
    JavaScript string concatenation of numbers, [null] and [undefined],
    [JSON.stringify], the SHA-256 digest behind
    [crypto.createHash('sha256')], and the [elliptic] signature library,
    which stays an interface. [Date.now()] is an explicit argument of every
    operation that reads the clock. Clock readings are integers ([Z]);
    nonces and difficulties are naturals. Amounts are integers ([Z]) in
    [Main] and [Alt], as in the runs of [src/main.js]; what the code does
    with amounts as the binary64 values they are (rounding, [NaN]) is
    stated over [Doubles], which embeds [src/blockchain.js] again with
    amounts of that type. *)

From Stdlib Require Import ZArith List String Ascii Bool Lia.
From Stdlib Require Import DecimalString DecimalPos DecimalZ.
From Stdlib Require Import Floats.
Import ListNotations.
Local Open Scope string_scope.
Local Open Scope Z_scope.

(** ** JavaScript runtime values *)

Module Js.

(** [String(n)] for an integer-valued number (below 1e21 in size, where
    JavaScript prints every digit). *)
Definition num_to_string (n : Z) : string :=
  NilZero.string_of_int (Z.to_int n).

(** [String(n)] for a non-negative counter. *)
Definition nat_to_string (n : nat) : string :=
  num_to_string (Z.of_nat n).

(** The operand of [+] that the code leaves [undefined]. *)
Definition undefined_str : string := "undefined".

(** A nullable string in a concatenation: [null + s] is ["null" ++ s]. *)
Definition nullable_to_string (v : option string) : string :=
  match v with
  | Some s => s
  | None => "null"
  end.

(** [Array(d + 1).join('1')]: [d] copies of the target digit. *)
Fixpoint ones (d : nat) : string :=
  match d with
  | O => EmptyString
  | S d' => String "1" (ones d')
  end.

(** [s.substring(0, d)]. *)
Definition prefix (d : nat) (s : string) : string := String.substring 0 d s.

(** Errors a call can raise. *)
Inductive error : Type :=
| Error (msg : string)
| TypeError (msg : string).

(** The outcome of a call: a value, an exception, or a loop that did
    not finish within the iterations it was given. *)
Inductive outcome (A : Type) : Type :=
| Ret (a : A)
| Throw (e : error)
| Timeout.
Arguments Ret {A} a.
Arguments Throw {A} e.
Arguments Timeout {A}.

Definition obind {A B} (o : outcome A) (k : A -> outcome B) : outcome B :=
  match o with
  | Ret a => k a
  | Throw e => Throw e
  | Timeout => Timeout
  end.

(** Calls on an object of state [S]: the outcome and the state the call
    leaves behind, also when it raises. *)
Definition M (S A : Type) : Type := S -> outcome A * S.

Definition ret {S A} (a : A) : M S A := fun s => (Ret a, s).
Definition lift {S A} (o : outcome A) : M S A := fun s => (o, s).
Definition get {S} : M S S := fun s => (Ret s, s).
Definition put {S} (s : S) : M S unit := fun _ => (Ret tt, s).
Definition bind {S A B} (m : M S A) (k : A -> M S B) : M S B :=
  fun s =>
    match m s with
    | (Ret a, s') => k a s'
    | (Throw e, s') => (Throw e, s')
    | (Timeout, s') => (Timeout, s')
    end.

End Js.

Declare Scope js_scope.
Delimit Scope js_scope with js.
Notation "x <- m ;; k" := (Js.bind m (fun x => k))
  (at level 61, m at next level, right associativity) : js_scope.
Notation "m ;;; k" := (Js.bind m (fun _ => k))
  (at level 61, right associativity) : js_scope.

(** ** SHA-256 (FIPS 180-4), the digest of [crypto.createHash('sha256')] *)

Module Sha256.

Definition mask32 : Z := 0xffffffff.
Definition w32 (x : Z) : Z := Z.land x mask32.
Definition add32 (x y : Z) : Z := w32 (x + y).
Definition rotr (n x : Z) : Z :=
  Z.lor (Z.shiftr x n) (w32 (Z.shiftl x (32 - n))).
Definition not32 (x : Z) : Z := Z.lxor x mask32.

Definition ch (x y z : Z) : Z := Z.lxor (Z.land x y) (Z.land (not32 x) z).
Definition maj (x y z : Z) : Z :=
  Z.lxor (Z.lxor (Z.land x y) (Z.land x z)) (Z.land y z).
Definition bsig0 (x : Z) : Z := Z.lxor (Z.lxor (rotr 2 x) (rotr 13 x)) (rotr 22 x).
Definition bsig1 (x : Z) : Z := Z.lxor (Z.lxor (rotr 6 x) (rotr 11 x)) (rotr 25 x).
Definition ssig0 (x : Z) : Z := Z.lxor (Z.lxor (rotr 7 x) (rotr 18 x)) (Z.shiftr x 3).
Definition ssig1 (x : Z) : Z := Z.lxor (Z.lxor (rotr 17 x) (rotr 19 x)) (Z.shiftr x 10).

(** The primes below 312: the first sixty-four. *)
Definition is_prime (n : Z) : bool :=
  forallb (fun d => negb (n mod Z.of_nat d =? 0)) (seq 2 (Z.to_nat n - 2)).

Definition primes : list Z :=
  Eval vm_compute in filter is_prime (map Z.of_nat (seq 2 310)).

(** The integer [k]-th root of [n], found bit by bit from bit [bits - 1] down. *)
Fixpoint root_bits (k : Z) (bits : nat) (n r : Z) : Z :=
  match bits with
  | O => r
  | S i =>
      let c := r + 2 ^ Z.of_nat i in
      root_bits k i n (if c ^ k <=? n then c else r)
  end.

(** The first 32 bits of the fractional part of the [k]-th root of [p]. *)
Definition frac_root (k p : Z) : Z :=
  w32 (root_bits k 40 (p * 2 ^ (32 * k)) 0).

(** The round constants: cube roots of the first sixty-four primes. *)
Definition K : list Z := Eval vm_compute in map (frac_root 3) primes.

(** The initial hash value: square roots of the first eight primes. *)
Definition H0 : list Z := Eval vm_compute in map (frac_root 2) (firstn 8 primes).

(** The bytes of a string, as numbers. *)
Fixpoint bytes_of_string (s : string) : list Z :=
  match s with
  | EmptyString => []
  | String c s' => Z.of_nat (nat_of_ascii c) :: bytes_of_string s'
  end.

(** The big-endian bytes of [x], [n] of them. *)
Fixpoint be_bytes (n : nat) (x : Z) : list Z :=
  match n with
  | O => []
  | S n' => Z.land (Z.shiftr x (8 * Z.of_nat n')) 0xff :: be_bytes n' x
  end.

(** Padding: a 1 bit, zeros up to 56 mod 64 bytes, the bit length on 8 bytes. *)
Definition pad (msg : list Z) : list Z :=
  let len := Z.of_nat (List.length msg) in
  let zeros := Z.to_nat ((55 - len) mod 64) in
  msg ++ [0x80] ++ repeat 0 zeros ++ be_bytes 8 (8 * len).

(** Big-endian 32-bit words of a byte sequence. *)
Fixpoint words_of_bytes (fuel : nat) (bs : list Z) : list Z :=
  match fuel, bs with
  | S fuel', b0 :: b1 :: b2 :: b3 :: rest =>
      (Z.shiftl b0 24 + Z.shiftl b1 16 + Z.shiftl b2 8 + b3)
        :: words_of_bytes fuel' rest
  | _, _ => []
  end.

(** The message schedule, newest word first: [w] holds W[t-1], W[t-2], ... *)
Fixpoint extend (n : nat) (w : list Z) : list Z :=
  match n with
  | O => w
  | S n' =>
      let x := add32 (add32 (ssig1 (nth 1 w 0)) (nth 6 w 0))
                     (add32 (ssig0 (nth 14 w 0)) (nth 15 w 0)) in
      extend n' (x :: w)
  end.

Definition schedule (block : list Z) : list Z :=
  rev (extend 48 (rev block)).

Record regs : Type := mkRegs { ra : Z; rb : Z; rc : Z; rd : Z;
                               re : Z; rf : Z; rg : Z; rh : Z }.

Definition round (s : regs) (kw : Z * Z) : regs :=
  let (k, w) := kw in
  let t1 := add32 (add32 (add32 (rh s) (bsig1 (re s)))
                         (add32 (ch (re s) (rf s) (rg s)) k)) w in
  let t2 := add32 (bsig0 (ra s)) (maj (ra s) (rb s) (rc s)) in
  mkRegs (add32 t1 t2) (ra s) (rb s) (rc s) (add32 (rd s) t1) (re s) (rf s) (rg s).

Definition compress (h : regs) (block : list Z) : regs :=
  let s := fold_left round (combine K (schedule block)) h in
  mkRegs (add32 (ra h) (ra s)) (add32 (rb h) (rb s))
         (add32 (rc h) (rc s)) (add32 (rd h) (rd s))
         (add32 (re h) (re s)) (add32 (rf h) (rf s))
         (add32 (rg h) (rg s)) (add32 (rh h) (rh s)).

Fixpoint blocks (fuel : nat) (h : regs) (ws : list Z) : regs :=
  match fuel with
  | O => h
  | S fuel' =>
      match ws with
      | [] => h
      | _ => blocks fuel' (compress h (firstn 16 ws)) (skipn 16 ws)
      end
  end.

Definition init : regs :=
  match H0 with
  | [a; b; c; d; e; f; g; h] => mkRegs a b c d e f g h
  | _ => mkRegs 0 0 0 0 0 0 0 0
  end.

Definition hex_digit (x : Z) : ascii :=
  match x with
  | 0 => "0" | 1 => "1" | 2 => "2" | 3 => "3" | 4 => "4" | 5 => "5"
  | 6 => "6" | 7 => "7" | 8 => "8" | 9 => "9" | 10 => "a" | 11 => "b"
  | 12 => "c" | 13 => "d" | 14 => "e" | _ => "f"
  end%char.

(** [n] lowercase hex digits of [x], most significant first. *)
Fixpoint hex (n : nat) (x : Z) : string :=
  match n with
  | O => EmptyString
  | S n' => String (hex_digit (Z.land (Z.shiftr x (4 * Z.of_nat n')) 0xf)) (hex n' x)
  end.

Definition hex_of_regs (s : regs) : string :=
  hex 8 (ra s) ++ hex 8 (rb s) ++ hex 8 (rc s) ++ hex 8 (rd s) ++
  hex 8 (re s) ++ hex 8 (rf s) ++ hex 8 (rg s) ++ hex 8 (rh s).

(** [crypto.createHash('sha256').update(s).digest('hex')]. *)
Definition digest_hex (s : string) : string :=
  let bs := pad (bytes_of_string s) in
  let ws := words_of_bytes (List.length bs) bs in
  hex_of_regs (blocks (List.length ws) init ws).

End Sha256.

Arguments Sha256.digest_hex : simpl never.

(** ** [JSON.stringify] of the ledger's objects *)

Module Json.

Definition dquote : ascii := ascii_of_nat 34.
Definition backslash : ascii := ascii_of_nat 92.

(** One character of a JSON string, escaped as [JSON.stringify] does. *)
Definition escape_char (c : ascii) : string :=
  let n := nat_of_ascii c in
  if Nat.eqb n 34 then String backslash (String dquote EmptyString)
  else if Nat.eqb n 92 then String backslash (String backslash EmptyString)
  else if Nat.eqb n 8 then String backslash "b"
  else if Nat.eqb n 9 then String backslash "t"
  else if Nat.eqb n 10 then String backslash "n"
  else if Nat.eqb n 12 then String backslash "f"
  else if Nat.eqb n 13 then String backslash "r"
  else if Nat.ltb n 32 then String backslash ("u00" ++ Sha256.hex 2 (Z.of_nat n))
  else String c EmptyString.

Fixpoint escape (s : string) : string :=
  match s with
  | EmptyString => EmptyString
  | String c s' => escape_char c ++ escape s'
  end.

(** A string value, in quotes. *)
Definition str (s : string) : string :=
  String dquote (escape s ++ String dquote EmptyString).

(** A nullable string value. *)
Definition nullable (v : option string) : string :=
  match v with
  | Some s => str s
  | None => "null"
  end.

(** A property, [key] in quotes followed by a colon and the value. *)
Definition prop (key value : string) : string :=
  str key ++ ":" ++ value.

(** The elements of an array or the properties of an object, comma separated. *)
Fixpoint commas (items : list string) : string :=
  match items with
  | [] => EmptyString
  | [x] => x
  | x :: rest => x ++ "," ++ commas rest
  end.

Definition array (items : list string) : string := "[" ++ commas items ++ "]".
Definition object (props : list string) : string := "{" ++ commas props ++ "}".

End Json.

(** ** The [elliptic] library

    The code reaches the library through [ec.keyFromPrivate],
    [key.getPublic('hex')], [ec.sign] / [key.sign], [sig.toDER('hex')],
    [ec.keyFromPublic(sender, 'hex')] and [publicKey.verify]. Importing a
    public key and verifying may raise; the [signature] handed to [verify]
    is whatever the field holds. *)

Inductive sigval : Type :=
| SigUndefined              (* the field was never assigned *)
| SigNull                   (* the field holds [null] *)
| SigHex (der : string).    (* the field holds a DER signature in hex *)

Class Elliptic : Type := {
  keypair : Type;
  ecsignature : Type;
  pubkey : Type;
  keyFromPrivate : string -> keypair;
  getPublic : keypair -> string;
  sign : string -> keypair -> ecsignature;
  toDER : ecsignature -> string;
  keyFromPublic : option string -> Js.outcome pubkey;
  verify : pubkey -> string -> sigval -> Js.outcome bool
}.

(** What the library promises: a signature made with a key verifies under
    the public identifier of that key. *)
Definition sign_verify_roundtrip (ec : Elliptic) : Prop :=
  forall (k : keypair) (h : string),
    Js.obind (keyFromPublic (Some (getPublic k)))
             (fun pk => verify pk h (SigHex (toDER (sign h k))))
    = Js.Ret true.

Definition option_string_eqb (a b : option string) : bool :=
  match a, b with
  | Some x, Some y => String.eqb x y
  | None, None => true
  | _, _ => false
  end.

(** An optional counter in a concatenation: [undefined] when never assigned. *)
Definition opt_nat_to_string (v : option nat) : string :=
  match v with
  | Some n => Js.nat_to_string n
  | None => Js.undefined_str
  end.

(** ** [src/blockchain.js] *)

Module Main.

Module Transaction.

Record t : Type := mk {
  sender : option string;       (* [null] for a mining reward *)
  recipient : string;
  amount : Z;
  timestamp : Z;
  signature : sigval
}.

(** [new Transaction(sender, recipient, amount)] at clock [now]: the
    constructor assigns four fields and leaves [signature] unassigned. *)
Definition new (now : Z) (sender : option string) (recipient : string)
           (amount : Z) : t :=
  mk sender recipient amount now SigUndefined.

Definition set_signature (tx : t) (s : sigval) : t :=
  mk (sender tx) (recipient tx) (amount tx) (timestamp tx) s.

(** [sha256(this.sender + this.recipient + this.amount + this.timestamp)]. *)
Definition calculateHash (tx : t) : string :=
  Sha256.digest_hex
    (Js.nullable_to_string (sender tx) ++ recipient tx
     ++ Js.num_to_string (amount tx) ++ Js.num_to_string (timestamp tx)).

Section WithLibrary.
Context {ec : Elliptic}.

(** [signTransaction(privateKey)]: the outcome and the transaction
    after the call. *)
Definition signTransaction (privateKey : keypair) (tx : t)
  : Js.outcome unit * t :=
  if negb (option_string_eqb (Some (getPublic privateKey)) (sender tx)) then
    (Js.Throw (Js.Error "You cannot sign transactions for other wallets!"), tx)
  else
    let hashTx := calculateHash tx in
    let sig := sign hashTx privateKey in
    (Js.Ret tt, set_signature tx (SigHex (toDER sig))).

(** [isValid()]: [true] at once when [signature === null]; the test
    for an empty signature only logs, so every other signature,
    [undefined] included, goes to the library. *)
Definition isValid (tx : t) : Js.outcome bool :=
  match signature tx with
  | SigNull => Js.Ret true
  | s =>
      Js.obind (keyFromPublic (sender tx))
               (fun publicKey => verify publicKey (calculateHash tx) s)
  end.
End WithLibrary.

(** [JSON.stringify(tx)]: properties in creation order, [undefined] skipped. *)
Definition json (tx : t) : string :=
  Json.object
    ([ Json.prop "sender" (Json.nullable (sender tx));
       Json.prop "recipient" (Json.str (recipient tx));
       Json.prop "amount" (Js.num_to_string (amount tx));
       Json.prop "timestamp" (Js.num_to_string (timestamp tx)) ]
     ++ match signature tx with
        | SigUndefined => []
        | SigNull => [ Json.prop "signature" "null" ]
        | SigHex der => [ Json.prop "signature" (Json.str der) ]
        end).

End Transaction.

Module Block.

Record t : Type := mk {
  index : option nat;           (* never assigned by the constructor *)
  previousHash : string;
  transactions : list Transaction.t;
  timestamp : Z;
  hash : string;
  nonce : nat
}.

(** The digest [calculateHash] takes of the four fields it reads; an
    unassigned field reads as [undefined]. *)
Definition hash_of (index : option nat) (previousHash : string)
           (timestamp : Z) (nonce : option nat) : string :=
  Sha256.digest_hex
    (opt_nat_to_string index ++ previousHash
     ++ Js.num_to_string timestamp ++ opt_nat_to_string nonce).

(** [calculateHash()] on a constructed block. *)
Definition calculateHash (b : t) : string :=
  hash_of (index b) (previousHash b) (timestamp b) (Some (nonce b)).

(** [new Block(previousHash, transactions, timestamp)]: [hash] is
    computed before [nonce] is assigned, then [nonce] becomes 1. *)
Definition new (previousHash : string) (transactions : list Transaction.t)
           (timestamp : Z) : t :=
  mk None previousHash transactions timestamp
     (hash_of None previousHash timestamp None) 1.

Definition set_nonce (b : t) (n : nat) : t :=
  mk (index b) (previousHash b) (transactions b) (timestamp b) (hash b) n.
Definition set_hash (b : t) (h : string) : t :=
  mk (index b) (previousHash b) (transactions b) (timestamp b) h (nonce b).

(** Whether the loop of [mineBlock] stops: the first [difficulty]
    characters of [hash] are the string of that many ['1']. *)
Definition meets_target (difficulty : nat) (h : string) : bool :=
  String.eqb (Js.prefix difficulty h) (Js.ones difficulty).

(** One pass through the body of the loop. *)
Definition mine_step (b : t) : t :=
  let b1 := set_nonce b (S (nonce b)) in
  set_hash b1 (calculateHash b1).

(** [mineBlock(difficulty)], given [fuel] passes through the loop. *)
Fixpoint mineBlock (fuel : nat) (difficulty : nat) (b : t) : Js.outcome t :=
  if meets_target difficulty (hash b) then Js.Ret b
  else match fuel with
       | O => Js.Timeout
       | S fuel' => mineBlock fuel' difficulty (mine_step b)
       end.

Section WithLibrary.
Context {ec : Elliptic}.

Fixpoint all_valid (txs : list Transaction.t) : Js.outcome bool :=
  match txs with
  | [] => Js.Ret true
  | tx :: rest =>
      Js.obind (Transaction.isValid tx)
               (fun ok => if negb ok then Js.Ret false else all_valid rest)
  end.

(** [hasValidTransactions()]. *)
Definition hasValidTransactions (b : t) : Js.outcome bool :=
  all_valid (transactions b).
End WithLibrary.

(** [JSON.stringify(block)]. *)
Definition json (b : t) : string :=
  Json.object
    ([ Json.prop "previousHash" (Json.str (previousHash b));
       Json.prop "transactions" (Json.array (map Transaction.json (transactions b)));
       Json.prop "timestamp" (Js.num_to_string (timestamp b));
       Json.prop "hash" (Json.str (hash b));
       Json.prop "nonce" (Js.nat_to_string (nonce b)) ]
     ++ match index b with
        | None => []
        | Some i => [ Json.prop "index" (Js.nat_to_string i) ]
        end).

End Block.

Module Blockchain.

Record t : Type := mk {
  chain : list Block.t;
  difficulty : nat;
  pendingTransactions : list Transaction.t;
  mineReward : Z
}.

Definition set_chain (bc : t) (c : list Block.t) : t :=
  mk c (difficulty bc) (pendingTransactions bc) (mineReward bc).
Definition set_pendingTransactions (bc : t) (p : list Transaction.t) : t :=
  mk (chain bc) (difficulty bc) p (mineReward bc).

Local Open Scope js_scope.

(** [createGenesisBlock()] at clock [now]. *)
Definition createGenesisBlock (now : Z) : Block.t := Block.new "0" [] now.

(** [new Blockchain()] at clock [now]. *)
Definition new (now : Z) : t := mk [createGenesisBlock now] 4 [] 100.

(** [getLatestBlock()]: [chain[chain.length - 1]], [undefined] on an
    empty chain. *)
Definition getLatestBlock (bc : t) : option Block.t :=
  nth_error (chain bc) (List.length (chain bc) - 1).

(** [minePendingTransactions(miningRewardAddress)]; the clock is read
    for the reward transaction, then for the block. Reading [.hash] of
    an [undefined] latest block raises. *)
Definition minePendingTransactions (fuel : nat) (now_tx now_block : Z)
           (miningRewardAddress : string) : Js.M t unit :=
  bc <- Js.get ;;
  let rewardTx := Transaction.new now_tx None miningRewardAddress (mineReward bc) in
  Js.put (set_pendingTransactions bc (pendingTransactions bc ++ [rewardTx])) ;;;
  bc <- Js.get ;;
  latest <- Js.lift (match getLatestBlock bc with
                     | Some b => Js.Ret b
                     | None => Js.Throw (Js.TypeError "Cannot read properties of undefined")
                     end) ;;
  let block := Block.new (Block.hash latest) (pendingTransactions bc) now_block in
  mined <- Js.lift (Block.mineBlock fuel (difficulty bc) block) ;;
  bc <- Js.get ;;
  Js.put (set_chain bc (chain bc ++ [mined])) ;;;
  bc <- Js.get ;;
  Js.put (set_pendingTransactions bc []).

(** The body of the inner loop of [getBalanceOfAddress]. *)
Definition balance_tx (address : option string) (balance : Z)
           (trans : Transaction.t) : Z :=
  let balance :=
    if option_string_eqb (Transaction.sender trans) address
    then balance - Transaction.amount trans else balance in
  if option_string_eqb (Some (Transaction.recipient trans)) address
  then balance + Transaction.amount trans else balance.

Definition balance_block (address : option string) (balance : Z)
           (block : Block.t) : Z :=
  fold_left (balance_tx address) (Block.transactions block) balance.

(** [getBalanceOfAddress(address)]. *)
Definition getBalanceOfAddress (address : option string) : Js.M t Z :=
  bc <- Js.get ;;
  Js.ret (fold_left (balance_block address) (chain bc) 0).

(** The body of the inner loop of [getAllTransactionForWallet]. *)
Definition wallet_tx (address : option string) (txs : list Transaction.t)
           (tx : Transaction.t) : list Transaction.t :=
  if option_string_eqb (Transaction.sender tx) address
     || option_string_eqb (Some (Transaction.recipient tx)) address
  then txs ++ [tx] else txs.

Definition wallet_block (address : option string) (txs : list Transaction.t)
           (block : Block.t) : list Transaction.t :=
  fold_left (wallet_tx address) (Block.transactions block) txs.

(** [getAllTransactionForWallet(address)]. *)
Definition getAllTransactionForWallet (address : option string)
  : Js.M t (list Transaction.t) :=
  bc <- Js.get ;;
  Js.ret (fold_left (wallet_block address) (chain bc) []).

Section WithLibrary.
Context {ec : Elliptic}.

(** [addTransaction(transaction)]. *)
Definition addTransaction (transaction : Transaction.t) : Js.M t unit :=
  ok <- Js.lift (Transaction.isValid transaction) ;;
  if negb ok then Js.ret tt
  else if Transaction.amount transaction <=? 0 then Js.ret tt
  else
    balance <- getBalanceOfAddress (Transaction.sender transaction) ;;
    if balance <? Transaction.amount transaction then Js.ret tt
    else
      bc <- Js.get ;;
      Js.put (set_pendingTransactions bc (pendingTransactions bc ++ [transaction])).

(** The loop of [isChainValid] from index 1 on: [previousBlock] is
    the block before [currentBlock]. *)
Fixpoint check_blocks (previousBlock : Block.t) (rest : list Block.t)
  : Js.outcome bool :=
  match rest with
  | [] => Js.Ret true
  | currentBlock :: rest' =>
      Js.obind (Block.hasValidTransactions currentBlock) (fun ok =>
        if negb ok then Js.Ret false
        else if negb (String.eqb (Block.hash currentBlock)
                                 (Block.calculateHash currentBlock))
        then Js.Ret false
        else if negb (String.eqb (Block.previousHash currentBlock)
                                 (Block.hash previousBlock))
        then Js.Ret false
        else check_blocks currentBlock rest')
  end.

(** [isChainValid()] at clock [now]: the genesis block is rebuilt
    with a fresh [Date.now()] and compared as JSON with [chain[0]];
    [JSON.stringify] of a missing [chain[0]] is [undefined], which no
    string equals. *)
Definition isChainValid (now : Z) : Js.M t bool :=
  bc <- Js.get ;;
  let realGenesis := Block.json (createGenesisBlock now) in
  match chain bc with
  | [] => Js.ret false
  | genesis :: rest =>
      if negb (String.eqb realGenesis (Block.json genesis)) then Js.ret false
      else Js.lift (check_blocks genesis rest)
  end.
End WithLibrary.

End Blockchain.

End Main.

(** ** The second copy of the classes *)

Module Alt.

Module Transaction.

Record t : Type := mk {
  sender : option string;
  recipient : string;
  amount : Z;
  signature : sigval;
  timestamp : Z
}.

(** [new Transaction(sender, recipient, amount)] at clock [now]: here
    the constructor assigns [signature = null]. *)
Definition new (now : Z) (sender : option string) (recipient : string)
           (amount : Z) : t :=
  mk sender recipient amount SigNull now.

Definition set_signature (tx : t) (s : sigval) : t :=
  mk (sender tx) (recipient tx) (amount tx) s (timestamp tx).

Definition calculateHash (tx : t) : string :=
  Sha256.digest_hex
    (Js.nullable_to_string (sender tx) ++ recipient tx
     ++ Js.num_to_string (amount tx) ++ Js.num_to_string (timestamp tx)).

Section WithLibrary.
Context {ec : Elliptic}.

(** [signTransaction(privateKey)]: the private key itself, a hex
    string, is compared with [sender]; the other branch only logs. *)
Definition signTransaction (privateKey : string) (tx : t)
  : Js.outcome unit * t :=
  if option_string_eqb (Some privateKey) (sender tx) then
    let key := keyFromPrivate privateKey in
    let hash := calculateHash tx in
    let signature := sign hash key in
    (Js.Ret tt, set_signature tx (SigHex (toDER signature)))
  else
    (Js.Ret tt, tx).

(** [isValid()]: [false] at once when [signature === null]. *)
Definition isValid (tx : t) : Js.outcome bool :=
  match signature tx with
  | SigNull => Js.Ret false
  | s =>
      Js.obind (keyFromPublic (sender tx))
               (fun publicKey => verify publicKey (calculateHash tx) s)
  end.
End WithLibrary.

(** [JSON.stringify(tx)]: here [signature] is created before [timestamp]. *)
Definition json (tx : t) : string :=
  Json.object
    ([ Json.prop "sender" (Json.nullable (sender tx));
       Json.prop "recipient" (Json.str (recipient tx));
       Json.prop "amount" (Js.num_to_string (amount tx)) ]
     ++ match signature tx with
        | SigUndefined => []
        | SigNull => [ Json.prop "signature" "null" ]
        | SigHex der => [ Json.prop "signature" (Json.str der) ]
        end
     ++ [ Json.prop "timestamp" (Js.num_to_string (timestamp tx)) ]).

End Transaction.

Module Block.

Record t : Type := mk {
  index : nat;
  previousHash : option string;     (* the [hash] of the block before *)
  transactions : list Transaction.t;
  timestamp : Z;
  hash : option string;             (* [null] until mined *)
  nonce : nat
}.

(** [new Block(index, previousHash, transactions, timestamp, hash, nonce)]. *)
Definition new (index : nat) (previousHash : option string)
           (transactions : list Transaction.t) (timestamp : Z)
           (hash : option string) (nonce : nat) : t :=
  mk index previousHash transactions timestamp hash nonce.

(** [calculateHash()]: [index + previousHash + timestamp + nonce] is a
    string when [previousHash] is one; with [previousHash] [null] the
    sum is a number, which [update] refuses. *)
Definition calculateHash (b : t) : Js.outcome string :=
  match previousHash b with
  | Some p =>
      Js.Ret (Sha256.digest_hex
                (Js.nat_to_string (index b) ++ p
                 ++ Js.num_to_string (timestamp b) ++ Js.nat_to_string (nonce b)))
  | None => Js.Throw (Js.TypeError "The data argument must be of type string")
  end.

Definition set_nonce (b : t) (n : nat) : t :=
  mk (index b) (previousHash b) (transactions b) (timestamp b) (hash b) n.
Definition set_hash (b : t) (h : option string) : t :=
  mk (index b) (previousHash b) (transactions b) (timestamp b) h (nonce b).

(** [mineBlock(difficulty)], given [fuel] passes through the loop;
    [this.hash.substring] raises on a [null] hash. *)
Fixpoint mineBlock (fuel : nat) (difficulty : nat) (b : t) : Js.outcome t :=
  match hash b with
  | None => Js.Throw (Js.TypeError "Cannot read properties of null")
  | Some h =>
      if String.eqb (Js.prefix difficulty h) (Js.ones difficulty) then Js.Ret b
      else match fuel with
           | O => Js.Timeout
           | S fuel' =>
               let b1 := set_nonce b (S (nonce b)) in
               Js.obind (calculateHash b1)
                        (fun h' => mineBlock fuel' difficulty (set_hash b1 (Some h')))
           end
  end.

Section WithLibrary.
Context {ec : Elliptic}.

Fixpoint all_valid (txs : list Transaction.t) : Js.outcome bool :=
  match txs with
  | [] => Js.Ret true
  | tx :: rest =>
      Js.obind (Transaction.isValid tx)
               (fun ok => if negb ok then Js.Ret false else all_valid rest)
  end.

(** [hasValidTransactions()]. *)
Definition hasValidTransactions (b : t) : Js.outcome bool :=
  all_valid (transactions b).
End WithLibrary.

(** [JSON.stringify(block)]. *)
Definition json (b : t) : string :=
  Json.object
    [ Json.prop "index" (Js.nat_to_string (index b));
      Json.prop "previousHash" (Json.nullable (previousHash b));
      Json.prop "transactions" (Json.array (map Transaction.json (transactions b)));
      Json.prop "timestamp" (Js.num_to_string (timestamp b));
      Json.prop "hash" (Json.nullable (hash b));
      Json.prop "nonce" (Js.nat_to_string (nonce b)) ].

End Block.

Module Blockchain.

Record t : Type := mk {
  chain : list Block.t;
  difficulty : nat;
  pendingTransactions : list Transaction.t;
  mineReward : Z
}.

Definition set_chain (bc : t) (c : list Block.t) : t :=
  mk c (difficulty bc) (pendingTransactions bc) (mineReward bc).
Definition set_pendingTransactions (bc : t) (p : list Transaction.t) : t :=
  mk (chain bc) (difficulty bc) p (mineReward bc).

Local Open Scope js_scope.

Definition createGenesisBlock (now : Z) : Block.t :=
  Block.new 0 (Some "0") [] now (Some "0") 0.

Definition new (now : Z) : t := mk [createGenesisBlock now] 4 [] 100.

Definition getLatestBlock (bc : t) : option Block.t :=
  nth_error (chain bc) (List.length (chain bc) - 1).

(** [minePendingTransactions(miningRewardAddress)]: the new block is
    built with [hash = null] and [nonce = 0], then mined. *)
Definition minePendingTransactions (fuel : nat) (now_tx now_block : Z)
           (miningRewardAddress : string) : Js.M t unit :=
  bc <- Js.get ;;
  let rewardTx := Transaction.new now_tx None miningRewardAddress (mineReward bc) in
  Js.put (set_pendingTransactions bc (pendingTransactions bc ++ [rewardTx])) ;;;
  bc <- Js.get ;;
  latest <- Js.lift (match getLatestBlock bc with
                     | Some b => Js.Ret b
                     | None => Js.Throw (Js.TypeError "Cannot read properties of undefined")
                     end) ;;
  let block := Block.new (Block.index latest + 1) (Block.hash latest)
                         (pendingTransactions bc) now_block None 0 in
  mined <- Js.lift (Block.mineBlock fuel (difficulty bc) block) ;;
  bc <- Js.get ;;
  Js.put (set_chain bc (chain bc ++ [mined])) ;;;
  bc <- Js.get ;;
  Js.put (set_pendingTransactions bc []).

(** The body of the inner loop of [getBalanceOfAddress]. *)
Definition balance_tx (address : option string) (balance : Z)
           (trans : Transaction.t) : Z :=
  let balance :=
    if option_string_eqb (Transaction.sender trans) address
    then balance - Transaction.amount trans else balance in
  if option_string_eqb (Some (Transaction.recipient trans)) address
  then balance + Transaction.amount trans else balance.

Definition balance_block (address : option string) (balance : Z)
           (block : Block.t) : Z :=
  fold_left (balance_tx address) (Block.transactions block) balance.

(** [getBalanceOfAddress(address)]. *)
Definition getBalanceOfAddress (address : option string) : Js.M t Z :=
  bc <- Js.get ;;
  Js.ret (fold_left (balance_block address) (chain bc) 0).

(** The body of the inner loop of [getAllTransactionForWallet]. *)
Definition wallet_tx (address : option string) (txs : list Transaction.t)
           (tx : Transaction.t) : list Transaction.t :=
  if option_string_eqb (Transaction.sender tx) address
     || option_string_eqb (Some (Transaction.recipient tx)) address
  then txs ++ [tx] else txs.

Definition wallet_block (address : option string) (txs : list Transaction.t)
           (block : Block.t) : list Transaction.t :=
  fold_left (wallet_tx address) (Block.transactions block) txs.

(** [getAllTransactionForWallet(address)]. *)
Definition getAllTransactionForWallet (address : option string)
  : Js.M t (list Transaction.t) :=
  bc <- Js.get ;;
  Js.ret (fold_left (wallet_block address) (chain bc) []).

Section WithLibrary.
Context {ec : Elliptic}.

(** [addTransaction(transaction)]. *)
Definition addTransaction (transaction : Transaction.t) : Js.M t unit :=
  ok <- Js.lift (Transaction.isValid transaction) ;;
  if negb ok then Js.ret tt
  else if Transaction.amount transaction <=? 0 then Js.ret tt
  else
    balance <- getBalanceOfAddress (Transaction.sender transaction) ;;
    if balance <? Transaction.amount transaction then Js.ret tt
    else
      bc <- Js.get ;;
      Js.put (set_pendingTransactions bc (pendingTransactions bc ++ [transaction])).

(** The loop of [isChainValid] from index 1 on; [calculateHash()] of the
    current block may raise. *)
Fixpoint check_blocks (previousBlock : Block.t) (rest : list Block.t)
  : Js.outcome bool :=
  match rest with
  | [] => Js.Ret true
  | currentBlock :: rest' =>
      Js.obind (Block.hasValidTransactions currentBlock) (fun ok =>
        if negb ok then Js.Ret false
        else
          Js.obind (Block.calculateHash currentBlock) (fun h =>
            if negb (option_string_eqb (Block.hash currentBlock) (Some h))
            then Js.Ret false
            else if negb (option_string_eqb (Block.previousHash currentBlock)
                                            (Block.hash previousBlock))
            then Js.Ret false
            else check_blocks currentBlock rest'))
  end.

(** [isChainValid()] at clock [now]. *)
Definition isChainValid (now : Z) : Js.M t bool :=
  bc <- Js.get ;;
  let realGenesis := Block.json (createGenesisBlock now) in
  match chain bc with
  | [] => Js.ret false
  | genesis :: rest =>
      if negb (String.eqb realGenesis (Block.json genesis)) then Js.ret false
      else Js.lift (check_blocks genesis rest)
  end.
End WithLibrary.

End Blockchain.

End Alt.

(** ** [src/blockchain.js] with its amounts as doubles

    A JavaScript number is an IEEE 754 binary64 value, and that is what
    [getBalanceOfAddress] adds and what [addTransaction] compares. [Main]
    keeps amounts in [Z], which is what the runs of [src/main.js] need;
    here the part of [src/blockchain.js] that computes with amounts is
    embedded again with [amount] and [mineReward] as binary64 values,
    [NaN], the infinities, the signed zeros and fractions included. The
    digest of a block does not read its transactions, so blocks are hashed
    and mined as in [Main]. [String(amount)], which only the hashed text of
    a transaction needs, is taken from the runtime as [number_to_string]. *)

Module Doubles.

Module Transaction.

Record t : Type := mk {
  sender : option string;
  recipient : string;
  amount : float;
  timestamp : Z;
  signature : sigval
}.

(** [new Transaction(sender, recipient, amount)] at clock [now]. *)
Definition new (now : Z) (sender : option string) (recipient : string)
           (amount : float) : t :=
  mk sender recipient amount now SigUndefined.

Definition set_signature (tx : t) (s : sigval) : t :=
  mk (sender tx) (recipient tx) (amount tx) (timestamp tx) s.

Section WithRuntime.
Context {ec : Elliptic}.
Variable number_to_string : float -> string.

(** [sha256(this.sender + this.recipient + this.amount + this.timestamp)]. *)
Definition calculateHash (tx : t) : string :=
  Sha256.digest_hex
    (Js.nullable_to_string (sender tx) ++ recipient tx
     ++ number_to_string (amount tx) ++ Js.num_to_string (timestamp tx)).

(** [signTransaction(privateKey)]. *)
Definition signTransaction (privateKey : keypair) (tx : t)
  : Js.outcome unit * t :=
  if negb (option_string_eqb (Some (getPublic privateKey)) (sender tx)) then
    (Js.Throw (Js.Error "You cannot sign transactions for other wallets!"), tx)
  else
    let hashTx := calculateHash tx in
    let sig := sign hashTx privateKey in
    (Js.Ret tt, set_signature tx (SigHex (toDER sig))).

(** [isValid()]. *)
Definition isValid (tx : t) : Js.outcome bool :=
  match signature tx with
  | SigNull => Js.Ret true
  | s =>
      Js.obind (keyFromPublic (sender tx))
               (fun publicKey => verify publicKey (calculateHash tx) s)
  end.
End WithRuntime.

End Transaction.

Module Block.

Record t : Type := mk {
  index : option nat;
  previousHash : string;
  transactions : list Transaction.t;
  timestamp : Z;
  hash : string;
  nonce : nat
}.

(** [calculateHash()]: the digest of [index], [previousHash], [timestamp]
    and [nonce]. *)
Definition calculateHash (b : t) : string :=
  Main.Block.hash_of (index b) (previousHash b) (timestamp b) (Some (nonce b)).

(** [new Block(previousHash, transactions, timestamp)]. *)
Definition new (previousHash : string) (transactions : list Transaction.t)
           (timestamp : Z) : t :=
  mk None previousHash transactions timestamp
     (Main.Block.hash_of None previousHash timestamp None) 1.

Definition set_nonce (b : t) (n : nat) : t :=
  mk (index b) (previousHash b) (transactions b) (timestamp b) (hash b) n.
Definition set_hash (b : t) (h : string) : t :=
  mk (index b) (previousHash b) (transactions b) (timestamp b) h (nonce b).

(** One pass through the body of the loop of [mineBlock]. *)
Definition mine_step (b : t) : t :=
  let b1 := set_nonce b (S (nonce b)) in
  set_hash b1 (calculateHash b1).

(** [mineBlock(difficulty)], given [fuel] passes through the loop. *)
Fixpoint mineBlock (fuel : nat) (difficulty : nat) (b : t) : Js.outcome t :=
  if Main.Block.meets_target difficulty (hash b) then Js.Ret b
  else match fuel with
       | O => Js.Timeout
       | S fuel' => mineBlock fuel' difficulty (mine_step b)
       end.

End Block.

Module Blockchain.

Record t : Type := mk {
  chain : list Block.t;
  difficulty : nat;
  pendingTransactions : list Transaction.t;
  mineReward : float
}.

Definition set_chain (bc : t) (c : list Block.t) : t :=
  mk c (difficulty bc) (pendingTransactions bc) (mineReward bc).
Definition set_pendingTransactions (bc : t) (p : list Transaction.t) : t :=
  mk (chain bc) (difficulty bc) p (mineReward bc).

Local Open Scope js_scope.

(** [createGenesisBlock()] at clock [now]. *)
Definition createGenesisBlock (now : Z) : Block.t := Block.new "0" [] now.

(** [new Blockchain()] at clock [now]. *)
Definition new (now : Z) : t := mk [createGenesisBlock now] 4 [] 100%float.

(** [getLatestBlock()]. *)
Definition getLatestBlock (bc : t) : option Block.t :=
  nth_error (chain bc) (List.length (chain bc) - 1).

(** [minePendingTransactions(miningRewardAddress)]. *)
Definition minePendingTransactions (fuel : nat) (now_tx now_block : Z)
           (miningRewardAddress : string) : Js.M t unit :=
  bc <- Js.get ;;
  let rewardTx := Transaction.new now_tx None miningRewardAddress (mineReward bc) in
  Js.put (set_pendingTransactions bc (pendingTransactions bc ++ [rewardTx])) ;;;
  bc <- Js.get ;;
  latest <- Js.lift (match getLatestBlock bc with
                     | Some b => Js.Ret b
                     | None => Js.Throw (Js.TypeError "Cannot read properties of undefined")
                     end) ;;
  let block := Block.new (Block.hash latest) (pendingTransactions bc) now_block in
  mined <- Js.lift (Block.mineBlock fuel (difficulty bc) block) ;;
  bc <- Js.get ;;
  Js.put (set_chain bc (chain bc ++ [mined])) ;;;
  bc <- Js.get ;;
  Js.put (set_pendingTransactions bc []).

(** The body of the inner loop of [getBalanceOfAddress]:
    [balance -= trans.amount] when the sender is [address], then
    [balance += trans.amount] when the recipient is. *)
Definition balance_tx (address : option string) (balance : float)
           (trans : Transaction.t) : float :=
  let balance :=
    if option_string_eqb (Transaction.sender trans) address
    then PrimFloat.sub balance (Transaction.amount trans) else balance in
  if option_string_eqb (Some (Transaction.recipient trans)) address
  then PrimFloat.add balance (Transaction.amount trans) else balance.

Definition balance_block (address : option string) (balance : float)
           (block : Block.t) : float :=
  fold_left (balance_tx address) (Block.transactions block) balance.

(** [getBalanceOfAddress(address)], from [let balance = 0]. *)
Definition getBalanceOfAddress (address : option string) : Js.M t float :=
  bc <- Js.get ;;
  Js.ret (fold_left (balance_block address) (chain bc) 0%float).

(** The body of the inner loop of [getAllTransactionForWallet]. *)
Definition wallet_tx (address : option string) (txs : list Transaction.t)
           (tx : Transaction.t) : list Transaction.t :=
  if option_string_eqb (Transaction.sender tx) address
     || option_string_eqb (Some (Transaction.recipient tx)) address
  then txs ++ [tx] else txs.

Definition wallet_block (address : option string) (txs : list Transaction.t)
           (block : Block.t) : list Transaction.t :=
  fold_left (wallet_tx address) (Block.transactions block) txs.

(** [getAllTransactionForWallet(address)]. *)
Definition getAllTransactionForWallet (address : option string)
  : Js.M t (list Transaction.t) :=
  bc <- Js.get ;;
  Js.ret (fold_left (wallet_block address) (chain bc) []).

Section WithRuntime.
Context {ec : Elliptic}.
Variable number_to_string : float -> string.

(** [addTransaction(transaction)]: [amount <= 0] and [balance < amount]
    compare doubles, and both are false when an operand is [NaN]. *)
Definition addTransaction (transaction : Transaction.t) : Js.M t unit :=
  ok <- Js.lift (Transaction.isValid number_to_string transaction) ;;
  if negb ok then Js.ret tt
  else if PrimFloat.leb (Transaction.amount transaction) 0%float then Js.ret tt
  else
    balance <- getBalanceOfAddress (Transaction.sender transaction) ;;
    if PrimFloat.ltb balance (Transaction.amount transaction) then Js.ret tt
    else
      bc <- Js.get ;;
      Js.put (set_pendingTransactions bc (pendingTransactions bc ++ [transaction])).
End WithRuntime.

End Blockchain.

End Doubles.

(** ** A stand-in for the library, to run the code on concrete inputs

    The public identifier of key [k] is ["04" ++ k]; a signature over [h]
    names [h] and the signer's identifier. In [elliptic], [verify] starts
    with [new Signature(signature, 'hex')], whose constructor, once the DER
    import has failed, reads [options.r]: on a signature that is
    [undefined] or [null] that read raises a [TypeError]. The stand-in
    raises in the same places, and on a key that has no public part. *)

Definition toy_ec : Elliptic := {|
  keypair := string;
  ecsignature := string;
  pubkey := option string;
  keyFromPrivate := fun k => k;
  getPublic := fun k => "04" ++ k;
  sign := fun h k => h ++ "/" ++ ("04" ++ k);
  toDER := fun s => "30" ++ s;
  keyFromPublic := fun s => Js.Ret s;
  verify := fun pk h s =>
    match s, pk with
    | SigHex d, Some p => Js.Ret (String.eqb d ("30" ++ h ++ "/" ++ p))
    | SigHex _, None => Js.Throw (Js.TypeError "Cannot read properties of null")
    | _, _ => Js.Throw (Js.TypeError "Cannot read properties of undefined (reading 'r')")
    end
|}.

(** [String(x)] on the doubles the examples below use: [NaN], the
    infinities, the zeros and the integers, printed in decimal as the
    runtime does below 1e21. The shortest decimal that the runtime prints
    for a fraction is not computed: this stand-in writes a fraction as its
    numerator over a power of two, which the runtime does not. *)
Definition toy_number_to_string (x : float) : string :=
  match Prim2SF x with
  | S754_nan => "NaN"
  | S754_infinity s => if s then "-Infinity" else "Infinity"
  | S754_zero _ => "0"
  | S754_finite s m e =>
      (if s then "-" else EmptyString)
      ++ (if 0 <=? e then Js.num_to_string (Z.pos m * 2 ^ e)
          else if Z.pos m mod 2 ^ (- e) =? 0
               then Js.num_to_string (Z.pos m / 2 ^ (- e))
               else Js.num_to_string (Z.pos m) ++ "/2^" ++ Js.num_to_string (- e))
  end.

(** ** Specification-side definitions *)

(** The reward transaction of [minePendingTransactions]. *)
Definition main_reward (now_tx : Z) (addr : string) (bc : Main.Blockchain.t)
  : Main.Transaction.t :=
  Main.Transaction.new now_tx None addr (Main.Blockchain.mineReward bc).

(** What one transaction contributes to the balance of [address]. *)
Definition net (address : option string) (tx : Main.Transaction.t) : Z :=
  (if option_string_eqb (Some (Main.Transaction.recipient tx)) address
   then Main.Transaction.amount tx else 0)
  - (if option_string_eqb (Main.Transaction.sender tx) address
     then Main.Transaction.amount tx else 0).

(** Every transaction of every block, in chain order. *)
Definition all_transactions (chain : list Main.Block.t) : list Main.Transaction.t :=
  flat_map Main.Block.transactions chain.

Definition sumZ (l : list Z) : Z := fold_right Z.add 0 l.

(** The balance as the specification words it: the sum, over all transactions of
    the chain, of [+amount] when received and [-amount] when sent. *)
Definition balance_sum (address : option string) (chain : list Main.Block.t) : Z :=
  sumZ (map (net address) (all_transactions chain)).

(** A string without a comma, as the decimal form of a number is. *)
Fixpoint no_comma (s : string) : Prop :=
  match s with
  | EmptyString => True
  | String c s' => c <> ","%char /\ no_comma s'
  end.

(** Whether [address] is the sender or the recipient of [tx]. *)
Definition involves (address : option string) (tx : Main.Transaction.t) : bool :=
  option_string_eqb (Main.Transaction.sender tx) address
  || option_string_eqb (Some (Main.Transaction.recipient tx)) address.

(** The same block with its transactions taken out. *)
Definition drop_transactions (b : Main.Block.t) : Main.Block.t :=
  Main.Block.mk (Main.Block.index b) (Main.Block.previousHash b) []
                (Main.Block.timestamp b) (Main.Block.hash b) (Main.Block.nonce b).

(** What the loop of [isChainValid] accepts: every block after the first
    has valid transactions, stores its recomputed hash and names the hash
    of the block before it. *)
Inductive audited {ec : Elliptic} : Main.Block.t -> list Main.Block.t -> Prop :=
| audited_nil (previousBlock : Main.Block.t) : audited previousBlock []
| audited_cons (previousBlock currentBlock : Main.Block.t)
               (rest : list Main.Block.t) :
    Main.Block.hasValidTransactions currentBlock = Js.Ret true ->
    Main.Block.hash currentBlock = Main.Block.calculateHash currentBlock ->
    Main.Block.previousHash currentBlock = Main.Block.hash previousBlock ->
    audited currentBlock rest ->
    audited previousBlock (currentBlock :: rest).

(** The ledgers of [src/blockchain.js] that calls of [addTransaction] and
    [minePendingTransactions] that have ended lead to, from
    [new Blockchain()] at clock [t0]. *)
Inductive reachable {ec : Elliptic} (t0 : Z) : Main.Blockchain.t -> Prop :=
| reachable_new : reachable t0 (Main.Blockchain.new t0)
| reachable_addTransaction (tx : Main.Transaction.t)
    (bc bc' : Main.Blockchain.t) (o : Js.outcome unit) :
    reachable t0 bc ->
    Main.Blockchain.addTransaction tx bc = (o, bc') ->
    reachable t0 bc'
| reachable_minePendingTransactions (fuel : nat) (now_tx now_block : Z)
    (addr : string) (bc bc' : Main.Blockchain.t) (o : Js.outcome unit) :
    reachable t0 bc ->
    Main.Blockchain.minePendingTransactions fuel now_tx now_block addr bc = (o, bc') ->
    o <> Js.Timeout ->
    reachable t0 bc'.

(** One line of the account of an address: an amount sent or received. *)
Inductive posting : Type :=
| Debit (x : float)
| Credit (x : float).


Definition post (balance : float) (p : posting) : float :=
  match p with
  | Debit x => PrimFloat.sub balance x
  | Credit x => PrimFloat.add balance x
  end.


(** Whether [address] is the sender or the recipient of [tx]. *)
Definition involves_double (address : option string) (tx : Doubles.Transaction.t)
  : bool :=
  option_string_eqb (Doubles.Transaction.sender tx) address
  || option_string_eqb (Some (Doubles.Transaction.recipient tx)) address.

(** A block as [minePendingTransactions] seals it: its last transaction
    is a reward of 100 from the [null] sender. *)
Definition ends_with_reward (txs : list Main.Transaction.t) : Prop :=
  exists pre now addr,
    txs = (pre ++ [Main.Transaction.new now None addr 100])%list.

(** The blocks after [previousBlock] are linked, mined at difficulty 4,
    without index, and end with a reward. *)
Inductive linked_chain : Main.Block.t -> list Main.Block.t -> Prop :=
| linked_nil (previousBlock : Main.Block.t) : linked_chain previousBlock []
| linked_cons (previousBlock currentBlock : Main.Block.t)
              (rest : list Main.Block.t) :
    Main.Block.previousHash currentBlock = Main.Block.hash previousBlock ->
    Main.Block.meets_target 4 (Main.Block.hash currentBlock) = true ->
    Main.Block.index currentBlock = None ->
    ends_with_reward (Main.Block.transactions currentBlock) ->
    linked_chain currentBlock rest ->
    linked_chain previousBlock (currentBlock :: rest).

(** The ledgers of the second copy reached the same way. *)
Inductive alt_reachable {ec : Elliptic} (t0 : Z) : Alt.Blockchain.t -> Prop :=
| alt_reachable_new : alt_reachable t0 (Alt.Blockchain.new t0)
| alt_reachable_addTransaction (tx : Alt.Transaction.t)
    (bc bc' : Alt.Blockchain.t) (o : Js.outcome unit) :
    alt_reachable t0 bc ->
    Alt.Blockchain.addTransaction tx bc = (o, bc') ->
    alt_reachable t0 bc'
| alt_reachable_minePendingTransactions (fuel : nat) (now_tx now_block : Z)
    (addr : string) (bc bc' : Alt.Blockchain.t) (o : Js.outcome unit) :
    alt_reachable t0 bc ->
    Alt.Blockchain.minePendingTransactions fuel now_tx now_block addr bc = (o, bc') ->
    o <> Js.Timeout ->
    alt_reachable t0 bc'.

(** ** Concrete runs *)

(** [src/main.js] up to its second mined block: build the ledger, mine
    for the wallet of [myKey], sign and submit a transfer of [amount] to
    [recipient], mine again. The clock is read by [new Blockchain()]
    ([t0]), twice by each [minePendingTransactions] ([t1], [t2] and [t4],
    [t5]) and by [new Transaction] ([t3]). *)
Definition main_run {ec : Elliptic} (fuel : nat) (myKey : keypair)
           (recipient : string) (amount : Z) (t0 t1 t2 t3 t4 t5 : Z)
  : Js.outcome unit * Main.Blockchain.t :=
  let myWalletAddress := getPublic myKey in
  let bc := Main.Blockchain.new t0 in
  (Main.Blockchain.minePendingTransactions fuel t1 t2 myWalletAddress ;;;
   tx1 <- Js.lift
            (let (signed, tx) :=
               Main.Transaction.signTransaction myKey
                 (Main.Transaction.new t3 (Some myWalletAddress) recipient amount) in
             Js.obind signed (fun _ => Js.Ret tx)) ;;
   Main.Blockchain.addTransaction tx1 ;;;
   Main.Blockchain.minePendingTransactions fuel t4 t5 myWalletAddress)%js bc.

(** The ledger after the first block has been mined for wallet ["04a1"]. *)
Definition ledger_one_block : Main.Blockchain.t :=
  Eval vm_compute in
  snd (Main.Blockchain.minePendingTransactions
         1 1700000004100 1700000004157 "04a1" (Main.Blockchain.new 1700000000000)).

(** A transfer of 100 from ["04a1"], signed with its key under [toy_ec]. *)
Definition signed_transfer : Main.Transaction.t :=
  Eval vm_compute in
  snd (@Main.Transaction.signTransaction toy_ec "a1"
         (Main.Transaction.new 1700000005000 (Some "04a1") "address2" 100)).

(** [tx.signTransaction(myKey); bc.addTransaction(tx)] for a transaction
    built at clock [now]. *)
Definition sign_and_add {ec : Elliptic} (myKey : keypair) (now : Z)
           (recipient : string) (amount : Z) : Js.M Main.Blockchain.t unit :=
  (tx <- Js.lift
           (let (signed, tx) :=
              Main.Transaction.signTransaction myKey
                (Main.Transaction.new now (Some (getPublic myKey)) recipient amount) in
            Js.obind signed (fun _ => Js.Ret tx)) ;;
   Main.Blockchain.addTransaction tx)%js.

(** The whole of [src/main.js]: three mined blocks with a transfer of 100
    to ['address2'] and one of 50 to ['address1'] in between, then the two
    values it prints, the balance of the wallet and the answer to
    'Is chain valid?'. The clock readings are taken in program order. *)
Definition main_js {ec : Elliptic} (fuel : nat) (myKey : keypair)
           (t0 t1 t2 t3 t4 t5 t6 t7 t8 t9 : Z)
  : Js.outcome (Z * string) * Main.Blockchain.t :=
  let myWalletAddress := getPublic myKey in
  (Main.Blockchain.minePendingTransactions fuel t1 t2 myWalletAddress ;;;
   sign_and_add myKey t3 "address2" 100 ;;;
   Main.Blockchain.minePendingTransactions fuel t4 t5 myWalletAddress ;;;
   sign_and_add myKey t6 "address1" 50 ;;;
   Main.Blockchain.minePendingTransactions fuel t7 t8 myWalletAddress ;;;
   balance <- Main.Blockchain.getBalanceOfAddress (Some myWalletAddress) ;;
   valid <- Main.Blockchain.isChainValid t9 ;;
   Js.ret (balance, if valid : bool then "Yes" else "No"))%js
    (Main.Blockchain.new t0).

(** A block holding only the signed transfer, mined on the genesis block
    of clock 1700000000000, and the ledger made of the two. *)
Definition signed_block : Main.Block.t :=
  Eval vm_compute in
  match Main.Block.mineBlock 1 4
          (Main.Block.new
             (Main.Block.hash (Main.Blockchain.createGenesisBlock 1700000000000))
             [signed_transfer] 1700000004157) with
  | Js.Ret b => b
  | _ => Main.Blockchain.createGenesisBlock 0
  end.

Definition ledger_signed_block : Main.Blockchain.t :=
  Main.Blockchain.mk
    [Main.Blockchain.createGenesisBlock 1700000000000; signed_block] 4 [] 100.

(** The ledger of [ledger_one_block] with the signed transfer admitted and
    a second block mined, then with a transfer of 30 waiting in the pool. *)
Definition ledger_two_blocks : Main.Blockchain.t :=
  Eval vm_compute in
  snd ((@Main.Blockchain.addTransaction toy_ec signed_transfer ;;;
        Main.Blockchain.minePendingTransactions
          1 1700000095900 1700000095941 "04a1")%js ledger_one_block).

Definition second_transfer : Main.Transaction.t :=
  Eval vm_compute in
  snd (@Main.Transaction.signTransaction toy_ec "a1"
         (Main.Transaction.new 1700000096000 (Some "04a1") "address1" 30)).

Definition ledger_two_blocks_pending : Main.Blockchain.t :=
  Eval vm_compute in
  snd (@Main.Blockchain.addTransaction toy_ec second_transfer ledger_two_blocks).

(** The same first block with amounts as doubles. *)
Definition doubles_one_block : Doubles.Blockchain.t :=
  Eval vm_compute in
  snd (Doubles.Blockchain.minePendingTransactions
         1 1700000004100 1700000004157 "04a1"
         (Doubles.Blockchain.new 1700000000000)).


(** A transfer of 100 from ["04a1"], signed with its key, and the ledger
    of [doubles_one_block] once [addTransaction] has admitted it. *)
Definition doubles_transfer : Doubles.Transaction.t :=
  Eval vm_compute in
  snd (@Doubles.Transaction.signTransaction toy_ec toy_number_to_string "a1"
         (Doubles.Transaction.new 1700000005000 (Some "04a1") "address2"
            100%float)).

Definition doubles_pending : Doubles.Blockchain.t :=
  Eval vm_compute in
  snd (@Doubles.Blockchain.addTransaction toy_ec toy_number_to_string
         doubles_transfer doubles_one_block).

(** A transfer of [NaN] from ["04b2"], a wallet that holds nothing, signed
    with its key. *)
Definition nan_transfer : Doubles.Transaction.t :=
  Eval vm_compute in
  snd (@Doubles.Transaction.signTransaction toy_ec toy_number_to_string "b2"
         (Doubles.Transaction.new 1700000005000 (Some "04b2") "address2"
            PrimFloat.nan)).

(** A chain in which ["04a1"] receives 1 and then sends 2^54 to itself. *)
Definition ledger_self_transfer : Doubles.Blockchain.t :=
  Doubles.Blockchain.mk
    [ Doubles.Blockchain.createGenesisBlock 1700000000000;
      Doubles.Block.new "0"
        [ Doubles.Transaction.new 1700000004100 None "04a1" 1%float;
          Doubles.Transaction.new 1700000005000 (Some "04a1") "04a1"
            18014398509481984%float ]
        1700000004157 ]
    4 [] 100%float.

(** * Properties *)

Lemma option_string_eqb_spec (a b : option string) :
  option_string_eqb a b = true <-> a = b.
Proof.
  destruct a as [x|], b as [y|]; simpl; try (split; congruence).
  rewrite String.eqb_eq. split; congruence.
Qed.

Lemma option_string_eqb_refl (a : option string) : option_string_eqb a a = true.
Proof. apply option_string_eqb_spec. reflexivity. Qed.

Lemma toy_ec_roundtrip : sign_verify_roundtrip toy_ec.
Proof.
  intros k h. simpl. f_equal. apply String.eqb_refl.
Qed.

(** ** The runtime model on known values *)

Example sha256_abc :
  Sha256.digest_hex "abc"
  = "ba7816bf8f01cfea414140de5dae2223b00361a396177a9cb410ff61f20015ad".
Proof. vm_compute. reflexivity. Qed.

Example sha256_two_blocks :
  Sha256.digest_hex "abcdbcdecdefdefgefghfghighijhijkijkljklmklmnlmnomnopnopq"
  = "248d6a61d20638b8e5c026930c3e6039a33ce45964ff2167f6ecedd419db06c1".
Proof. vm_compute. reflexivity. Qed.

Example num_to_string_examples :
  Js.num_to_string 0 = "0" /\ Js.num_to_string 1700000000000 = "1700000000000"
  /\ Js.num_to_string (-5) = "-5".
Proof. vm_compute. repeat split. Qed.

Example genesis_json :
  Main.Block.json (Main.Blockchain.createGenesisBlock 1700000000000)
  = Json.object
      [ Json.prop "previousHash" (Json.str "0");
        Json.prop "transactions" "[]";
        Json.prop "timestamp" "1700000000000";
        Json.prop "hash"
          (Json.str "29b54b9542b6368545991574539f9bff65260d457da9e5f3e250111a377ead8c");
        Json.prop "nonce" "1" ].
Proof. vm_compute. reflexivity. Qed.

(** ** Transactions *)

Section TransactionFacts.
Context {ec : Elliptic}.

(** In [src/blockchain.js] a [null] signature is accepted whoever the
    sender is. *)
Lemma main_isValid_null_signature (tx : Main.Transaction.t) :
  Main.Transaction.signature tx = SigNull ->
  Main.Transaction.isValid tx = Js.Ret true.
Proof.
  intros Hsig. unfold Main.Transaction.isValid. rewrite Hsig. reflexivity.
Qed.

(** In the second copy a [null] signature is refused whoever the sender is. *)
Lemma alt_isValid_null_signature (tx : Alt.Transaction.t) :
  Alt.Transaction.signature tx = SigNull ->
  Alt.Transaction.isValid tx = Js.Ret false.
Proof.
  intros Hsig. unfold Alt.Transaction.isValid. rewrite Hsig. reflexivity.
Qed.

(** In [src/blockchain.js] a signature that was never assigned is handed
    to the library with the sender's key. *)
Lemma main_isValid_unsigned (now : Z) (sender : option string)
      (recipient : string) (amount : Z) :
  let tx := Main.Transaction.new now sender recipient amount in
  Main.Transaction.isValid tx
  = Js.obind (keyFromPublic sender)
             (fun publicKey =>
                verify publicKey (Main.Transaction.calculateHash tx) SigUndefined).
Proof. reflexivity. Qed.

(** [src/blockchain.js]: signing with a key of another wallet raises and
    leaves the transaction as it was; signing with the sender's key
    stores the DER form of the signature over [calculateHash()]. *)
Lemma main_signTransaction_spec (privateKey : keypair) (tx : Main.Transaction.t) :
  (Some (getPublic privateKey) <> Main.Transaction.sender tx ->
   exists e, Main.Transaction.signTransaction privateKey tx = (Js.Throw e, tx))
  /\
  (Some (getPublic privateKey) = Main.Transaction.sender tx ->
   Main.Transaction.signTransaction privateKey tx
   = (Js.Ret tt,
      Main.Transaction.set_signature tx
        (SigHex (toDER (sign (Main.Transaction.calculateHash tx) privateKey))))).
Proof.
  unfold Main.Transaction.signTransaction.
  destruct (option_string_eqb (Some (getPublic privateKey))
                              (Main.Transaction.sender tx)) eqn:E; simpl.
  - apply option_string_eqb_spec in E. split; [congruence | reflexivity].
  - split.
    + intros _. eexists. reflexivity.
    + intros Heq. apply option_string_eqb_spec in Heq. congruence.
Qed.

(** A transaction signed by its sender's key verifies. *)
Lemma main_sign_then_isValid (privateKey : keypair) (tx tx' : Main.Transaction.t) :
  sign_verify_roundtrip ec ->
  Main.Transaction.signTransaction privateKey tx = (Js.Ret tt, tx') ->
  Main.Transaction.isValid tx' = Js.Ret true.
Proof.
  intros Hrt. unfold Main.Transaction.signTransaction.
  destruct (option_string_eqb (Some (getPublic privateKey))
                              (Main.Transaction.sender tx)) eqn:E; simpl;
    [| discriminate].
  intros H. injection H as <-.
  apply option_string_eqb_spec in E.
  unfold Main.Transaction.isValid. simpl. rewrite <- E.
  apply (Hrt privateKey (Main.Transaction.calculateHash tx)).
Qed.

End TransactionFacts.

(** C1 (the code departs from it). Sentinel trust asks [isValid()] to be
    true for an absent sender with an absent signature and false for a
    present sender with an absent signature. Neither copy looks at the
    sender: [src/blockchain.js] answers true for a present sender whose
    signature is [null], and the second copy answers false for the reward
    transaction that [minePendingTransactions] builds (sender [null],
    signature [null]). *)
Theorem C1_isValid_ignores_sender (ec : Elliptic) :
  (forall (sender recipient : string) (amount timestamp : Z),
      Main.Transaction.isValid
        (Main.Transaction.mk (Some sender) recipient amount timestamp SigNull)
      = Js.Ret true)
  /\
  (forall (now : Z) (miningRewardAddress : string) (mineReward : Z),
      Alt.Transaction.isValid
        (Alt.Transaction.new now None miningRewardAddress mineReward)
      = Js.Ret false).
Proof.
  split; intros.
  - apply main_isValid_null_signature. reflexivity.
  - apply alt_isValid_null_signature. reflexivity.
Qed.

(** C2 (the second copy departs from it). Signing with a foreign key must
    fail with an error. In the second copy [signTransaction] compares the
    private key itself with [sender] and, when they differ, returns
    normally with the transaction unsigned: no error is raised, also for
    the key whose public identifier is the sender. *)
Theorem C2_alt_signTransaction_never_raises (ec : Elliptic)
        (privateKey : string) (tx : Alt.Transaction.t) :
  Some privateKey <> Alt.Transaction.sender tx ->
  Alt.Transaction.signTransaction privateKey tx = (Js.Ret tt, tx).
Proof.
  intros Hne. unfold Alt.Transaction.signTransaction.
  destruct (option_string_eqb (Some privateKey) (Alt.Transaction.sender tx)) eqn:E.
  - apply option_string_eqb_spec in E. contradiction.
  - reflexivity.
Qed.

(** A foreign key, and the sender's own key, on a transfer from ["04a1"]. *)
Lemma C2_alt_signTransaction_witness :
  let tx := Alt.Transaction.new 1700000000000 (Some "04a1") "address2" 100 in
  @Alt.Transaction.signTransaction toy_ec "b2" tx = (Js.Ret tt, tx)
  /\ @Alt.Transaction.signTransaction toy_ec "a1" tx = (Js.Ret tt, tx)
  /\ @getPublic toy_ec "a1" = "04a1".
Proof.
  split; [| split].
  - apply (C2_alt_signTransaction_never_raises toy_ec). simpl. discriminate.
  - apply (C2_alt_signTransaction_never_raises toy_ec). simpl. discriminate.
  - reflexivity.
Defined.

(** C3 (the first copy departs from it). [isValid()] must return a boolean
    on a signature that was never set. In [src/blockchain.js] the test for
    an empty signature only logs, so the call goes on to
    [publicKey.verify(hash, undefined)] and its outcome is the library's:
    with a library that raises on an [undefined] signature, as [toy_ec]
    does, validating the reward transaction raises. *)
Theorem C3_main_isValid_unsigned_raises :
  (forall (ec : Elliptic) (now : Z) (sender : option string)
          (recipient : string) (amount : Z),
      let tx := Main.Transaction.new now sender recipient amount in
      Main.Transaction.isValid tx
      = Js.obind (keyFromPublic sender)
                 (fun publicKey =>
                    verify publicKey (Main.Transaction.calculateHash tx) SigUndefined))
  /\
  (exists e,
      @Main.Transaction.isValid toy_ec
        (Main.Transaction.new 1700000000000 None "04a1" 100)
      = Js.Throw e).
Proof.
  split.
  - intros. apply main_isValid_unsigned.
  - eexists. reflexivity.
Qed.

(** The second copy is total on a transaction fresh from its constructor. *)
Lemma alt_isValid_unsigned_total (ec : Elliptic) (now : Z)
      (sender : option string) (recipient : string) (amount : Z) :
  Alt.Transaction.isValid (Alt.Transaction.new now sender recipient amount)
  = Js.Ret false.
Proof. reflexivity. Qed.

(** ** Blocks and mining *)

Lemma prefix_ones_get (d : nat) (h : string) :
  Js.prefix d h = Js.ones d ->
  forall i, (i < d)%nat -> String.get i h = Some "1"%char.
Proof.
  unfold Js.prefix. revert h.
  induction d as [|d IH]; intros h Heq i Hi; [lia|].
  destruct h as [|c s]; simpl in Heq; [discriminate|].
  injection Heq as Hc Hs. subst c.
  destruct i as [|i]; simpl; [reflexivity|].
  apply IH; [exact Hs | lia].
Qed.

Lemma meets_target_get (d : nat) (h : string) :
  Main.Block.meets_target d h = true ->
  forall i, (i < d)%nat -> String.get i h = Some "1"%char.
Proof.
  unfold Main.Block.meets_target. intros H.
  apply String.eqb_eq in H. now apply prefix_ones_get.
Qed.

Lemma mineBlock_unfold (fuel d : nat) (b : Main.Block.t) :
  Main.Block.mineBlock fuel d b
  = if Main.Block.meets_target d (Main.Block.hash b) then Js.Ret b
    else match fuel with
         | O => Js.Timeout
         | S fuel' => Main.Block.mineBlock fuel' d (Main.Block.mine_step b)
         end.
Proof. destruct fuel; reflexivity. Qed.

(** A block whose stored hash already meets the target leaves the loop
    without one pass: nothing is recomputed. *)
Lemma mineBlock_no_pass (fuel d : nat) (b : Main.Block.t) :
  Main.Block.meets_target d (Main.Block.hash b) = true ->
  Main.Block.mineBlock fuel d b = Js.Ret b.
Proof. intros H. rewrite mineBlock_unfold, H. reflexivity. Qed.

(** When the loop ends, the stored hash meets the target. *)
Lemma mineBlock_meets_target (fuel d : nat) (b b' : Main.Block.t) :
  Main.Block.mineBlock fuel d b = Js.Ret b' ->
  Main.Block.meets_target d (Main.Block.hash b') = true.
Proof.
  revert b. induction fuel as [|fuel IH]; intros b; rewrite mineBlock_unfold;
    destruct (Main.Block.meets_target d (Main.Block.hash b)) eqn:E; intros H.
  - injection H as <-. exact E.
  - discriminate.
  - injection H as <-. exact E.
  - eapply IH; eauto.
Qed.

Lemma mine_step_hash (b : Main.Block.t) :
  Main.Block.hash (Main.Block.mine_step b)
  = Main.Block.calculateHash (Main.Block.mine_step b).
Proof. reflexivity. Qed.

(** The loop keeps [hash = calculateHash()] once it holds. *)
Lemma mineBlock_keeps_hash (fuel d : nat) (b b' : Main.Block.t) :
  Main.Block.hash b = Main.Block.calculateHash b ->
  Main.Block.mineBlock fuel d b = Js.Ret b' ->
  Main.Block.hash b' = Main.Block.calculateHash b'.
Proof.
  revert b. induction fuel as [|fuel IH]; intros b Hinv; rewrite mineBlock_unfold;
    destruct (Main.Block.meets_target d (Main.Block.hash b)); intros H;
    try discriminate; try (injection H as <-; exact Hinv).
  eapply IH; [apply mine_step_hash | exact H].
Qed.

(** After at least one pass the stored hash is the recomputed one. *)
Lemma mineBlock_hash_after_pass (fuel d : nat) (b b' : Main.Block.t) :
  Main.Block.meets_target d (Main.Block.hash b) = false ->
  Main.Block.mineBlock fuel d b = Js.Ret b' ->
  Main.Block.hash b' = Main.Block.calculateHash b'.
Proof.
  intros Hno. rewrite mineBlock_unfold, Hno. destruct fuel; [discriminate|].
  apply mineBlock_keeps_hash, mine_step_hash.
Qed.

(** Mining writes [nonce] and [hash] only. *)
Lemma mineBlock_frame (fuel d : nat) (b b' : Main.Block.t) :
  Main.Block.mineBlock fuel d b = Js.Ret b' ->
  Main.Block.index b' = Main.Block.index b
  /\ Main.Block.previousHash b' = Main.Block.previousHash b
  /\ Main.Block.transactions b' = Main.Block.transactions b
  /\ Main.Block.timestamp b' = Main.Block.timestamp b.
Proof.
  revert b. induction fuel as [|fuel IH]; intros b; rewrite mineBlock_unfold;
    destruct (Main.Block.meets_target d (Main.Block.hash b)); intros H;
    try discriminate; try (injection H as <-; now repeat split).
  apply IH in H. exact H.
Qed.

(** More fuel does not change the result of a finished search. *)
Lemma mineBlock_fuel_mono (fuel fuel' d : nat) (b b' : Main.Block.t) :
  (fuel <= fuel')%nat ->
  Main.Block.mineBlock fuel d b = Js.Ret b' ->
  Main.Block.mineBlock fuel' d b = Js.Ret b'.
Proof.
  revert fuel' b. induction fuel as [|fuel IH]; intros fuel' b Hle;
    rewrite (mineBlock_unfold fuel'), mineBlock_unfold;
    destruct (Main.Block.meets_target d (Main.Block.hash b)); intros H;
    try discriminate; try exact H.
  destruct fuel' as [|fuel']; [lia|]. apply IH; [lia | exact H].
Qed.

(** The search ends as soon as some number of passes reaches the target. *)
Lemma mineBlock_terminates (k d : nat) (b : Main.Block.t) :
  Main.Block.meets_target d
    (Main.Block.hash (Nat.iter k Main.Block.mine_step b)) = true ->
  exists b', Main.Block.mineBlock k d b = Js.Ret b'.
Proof.
  revert b. induction k as [|k IH]; intros b H; rewrite mineBlock_unfold;
    destruct (Main.Block.meets_target d (Main.Block.hash b)) eqn:E;
    try (eexists; reflexivity).
  - simpl in H. congruence.
  - apply IH. rewrite <- Nat.iter_succ_r. exact H.
Qed.

(** What holds of every mined block of [src/blockchain.js]: the first
    [difficulty] characters are the target digit, and the stored hash is
    the recomputed one provided the loop made a pass. *)
Lemma mineBlock_spec (fuel d : nat) (b b' : Main.Block.t) :
  Main.Block.mineBlock fuel d b = Js.Ret b' ->
  (forall i, (i < d)%nat -> String.get i (Main.Block.hash b') = Some "1"%char)
  /\ (Main.Block.meets_target d (Main.Block.hash b) = false ->
      Main.Block.hash b' = Main.Block.calculateHash b').
Proof.
  intros H. split.
  - apply meets_target_get. eapply mineBlock_meets_target; eauto.
  - intros Hno. eapply mineBlock_hash_after_pass; eauto.
Qed.

(** C4 (the code departs from it). After [mineBlock(d)] the stored hash
    must be [calculateHash()] of the block. The loop recomputes the hash
    only when it makes a pass, and the constructor of [src/blockchain.js]
    hashes before [nonce] is assigned: the block that follows the genesis
    block of clock 1700000000000, built at clock 1700000041740, already
    shows four leading ['1'], so [mineBlock(4)] returns it untouched with a
    stored hash that is not its [calculateHash()]. The second copy does the
    same with any block handed a hash that meets the target. *)
Theorem C4_mineBlock_keeps_stale_hash :
  (forall (fuel : nat) (txs : list Main.Transaction.t),
      let latest := Main.Blockchain.createGenesisBlock 1700000000000 in
      let b := Main.Block.new (Main.Block.hash latest) txs 1700000041740 in
      Main.Block.mineBlock fuel 4 b = Js.Ret b
      /\ Main.Block.hash b
         = "1111b724ffe5b67ab8f5a13987cbfb26b99f44e31785509e8c26a3cf0731a7bc"
      /\ Main.Block.calculateHash b
         = "69b1cf532477bf30911678d95118d806de199af7eba89f014732b76af6356102")
  /\
  (forall (fuel : nat) (txs : list Alt.Transaction.t),
      let b := Alt.Block.new 1 (Some "0") txs 1700000041740 (Some "1111") 0 in
      Alt.Block.mineBlock fuel 4 b = Js.Ret b
      /\ Alt.Block.calculateHash b <> Js.Ret "1111").
Proof.
  split; intros fuel txs.
  - assert (Hh : Main.Block.hash
                   (Main.Block.new
                      (Main.Block.hash (Main.Blockchain.createGenesisBlock 1700000000000))
                      txs 1700000041740)
                 = "1111b724ffe5b67ab8f5a13987cbfb26b99f44e31785509e8c26a3cf0731a7bc")
      by (vm_compute; reflexivity).
    cbv zeta. split; [| split].
    + apply mineBlock_no_pass. rewrite Hh. vm_compute. reflexivity.
    + exact Hh.
    + vm_compute. reflexivity.
  - cbv zeta. split.
    + destruct fuel; reflexivity.
    + vm_compute. intros H. discriminate H.
Qed.

(** C5. [calculateHash()] of a block reads [index], [previousHash],
    [timestamp] and [nonce] and nothing else: two blocks that agree on the
    four give the same digest, whatever their transactions (and stored
    hashes), in both copies of the class. *)
Theorem C5_calculateHash_ignores_transactions :
  (forall b1 b2 : Main.Block.t,
      Main.Block.index b1 = Main.Block.index b2 ->
      Main.Block.previousHash b1 = Main.Block.previousHash b2 ->
      Main.Block.timestamp b1 = Main.Block.timestamp b2 ->
      Main.Block.nonce b1 = Main.Block.nonce b2 ->
      Main.Block.calculateHash b1 = Main.Block.calculateHash b2)
  /\
  (forall b1 b2 : Alt.Block.t,
      Alt.Block.index b1 = Alt.Block.index b2 ->
      Alt.Block.previousHash b1 = Alt.Block.previousHash b2 ->
      Alt.Block.timestamp b1 = Alt.Block.timestamp b2 ->
      Alt.Block.nonce b1 = Alt.Block.nonce b2 ->
      Alt.Block.calculateHash b1 = Alt.Block.calculateHash b2).
Proof.
  split; intros b1 b2 Hi Hp Ht Hn.
  - unfold Main.Block.calculateHash. now rewrite Hi, Hp, Ht, Hn.
  - unfold Alt.Block.calculateHash. now rewrite Hi, Hp, Ht, Hn.
Qed.

(** Two blocks with the same header, one empty and one carrying a reward. *)
Lemma C5_calculateHash_witness :
  let reward := Main.Transaction.new 1700000000001 None "04a1" 100 in
  let areward := Alt.Transaction.new 1700000000001 None "04a1" 100 in
  Main.Block.calculateHash (Main.Block.mk None "0" [] 1700000000000 "x" 7)
  = Main.Block.calculateHash (Main.Block.mk None "0" [reward] 1700000000000 "y" 7)
  /\
  Alt.Block.calculateHash (Alt.Block.mk 3 (Some "0") [] 1700000000000 None 7)
  = Alt.Block.calculateHash (Alt.Block.mk 3 (Some "0") [areward] 1700000000000 (Some "y") 7).
Proof.
  split.
  - apply (proj1 C5_calculateHash_ignores_transactions); reflexivity.
  - apply (proj2 C5_calculateHash_ignores_transactions); reflexivity.
Defined.

(** ** The ledger *)

Ltac run_js :=
  unfold Js.bind, Js.get, Js.put, Js.lift, Js.ret; simpl.

Section LedgerFacts.
Context {ec : Elliptic}.

(** [src/blockchain.js]: when the search ends, the mined block is built
    from the whole pool plus the reward on top of the latest block, it is
    appended, and the pool is emptied. *)
Lemma main_minePendingTransactions_run
      (fuel : nat) (now_tx now_block : Z) (addr : string)
      (bc : Main.Blockchain.t) (latest mined : Main.Block.t) :
  Main.Blockchain.getLatestBlock bc = Some latest ->
  Main.Block.mineBlock fuel (Main.Blockchain.difficulty bc)
    (Main.Block.new (Main.Block.hash latest)
       (Main.Blockchain.pendingTransactions bc ++ [main_reward now_tx addr bc])
       now_block) = Js.Ret mined ->
  Main.Blockchain.minePendingTransactions fuel now_tx now_block addr bc
  = (Js.Ret tt,
     Main.Blockchain.mk (Main.Blockchain.chain bc ++ [mined])
                        (Main.Blockchain.difficulty bc) []
                        (Main.Blockchain.mineReward bc)).
Proof.
  intros Hlatest Hmine.
  unfold Main.Blockchain.minePendingTransactions. run_js.
  unfold Main.Blockchain.getLatestBlock in *. simpl.
  rewrite Hlatest. unfold main_reward in Hmine. rewrite Hmine. reflexivity.
Qed.

(** Conversely, a call that returns went through exactly that path. *)
Lemma main_minePendingTransactions_inv
      (fuel : nat) (now_tx now_block : Z) (addr : string)
      (bc bc' : Main.Blockchain.t) :
  Main.Blockchain.minePendingTransactions fuel now_tx now_block addr bc
  = (Js.Ret tt, bc') ->
  exists latest mined,
    Main.Blockchain.getLatestBlock bc = Some latest
    /\ Main.Block.mineBlock fuel (Main.Blockchain.difficulty bc)
         (Main.Block.new (Main.Block.hash latest)
            (Main.Blockchain.pendingTransactions bc ++ [main_reward now_tx addr bc])
            now_block) = Js.Ret mined
    /\ bc' = Main.Blockchain.mk (Main.Blockchain.chain bc ++ [mined])
                                (Main.Blockchain.difficulty bc) []
                                (Main.Blockchain.mineReward bc).
Proof.
  unfold Main.Blockchain.minePendingTransactions. run_js.
  unfold Main.Blockchain.getLatestBlock. simpl.
  destruct (nth_error (Main.Blockchain.chain bc)
                      (List.length (Main.Blockchain.chain bc) - 1))
    as [latest|] eqn:Hl; [| discriminate].
  unfold main_reward.
  destruct (Main.Block.mineBlock fuel (Main.Blockchain.difficulty bc) _)
    as [mined| |] eqn:Hm; try discriminate.
  intros H. injection H as <-. exists latest, mined. auto.
Qed.

(** The second copy: the block is built with a [null] hash, so
    [mineBlock] raises on its first test; the reward stays in the pool
    and nothing is appended. *)
Lemma alt_minePendingTransactions_raises
      (fuel : nat) (now_tx now_block : Z) (addr : string)
      (bc : Alt.Blockchain.t) :
  exists e,
    Alt.Blockchain.minePendingTransactions fuel now_tx now_block addr bc
    = (Js.Throw e,
       Alt.Blockchain.set_pendingTransactions bc
         (Alt.Blockchain.pendingTransactions bc
          ++ [Alt.Transaction.new now_tx None addr (Alt.Blockchain.mineReward bc)])).
Proof.
  unfold Alt.Blockchain.minePendingTransactions. run_js.
  destruct (Alt.Blockchain.getLatestBlock _) as [latest|].
  - destruct fuel; simpl; eexists; reflexivity.
  - eexists; reflexivity.
Qed.

(** [getBalanceOfAddress] returns the result of its two loops and leaves
    the ledger as it was. *)
Lemma getBalanceOfAddress_run (address : option string) (bc : Main.Blockchain.t) :
  Main.Blockchain.getBalanceOfAddress address bc
  = (Js.Ret (fold_left (Main.Blockchain.balance_block address)
                       (Main.Blockchain.chain bc) 0), bc).
Proof. reflexivity. Qed.

(** The gates of [addTransaction], once [isValid()] has returned [ok]. *)
Lemma addTransaction_run (tx : Main.Transaction.t) (bc : Main.Blockchain.t)
      (ok : bool) :
  Main.Transaction.isValid tx = Js.Ret ok ->
  Main.Blockchain.addTransaction tx bc
  = (Js.Ret tt,
     if negb ok then bc
     else if Main.Transaction.amount tx <=? 0 then bc
     else if fold_left (Main.Blockchain.balance_block (Main.Transaction.sender tx))
                       (Main.Blockchain.chain bc) 0
             <? Main.Transaction.amount tx then bc
     else Main.Blockchain.set_pendingTransactions bc
            (Main.Blockchain.pendingTransactions bc ++ [tx])).
Proof.
  intros Hv. unfold Main.Blockchain.addTransaction. run_js. rewrite Hv.
  destruct ok; simpl; [| reflexivity].
  destruct (Main.Transaction.amount tx <=? 0); [reflexivity|].
  unfold Main.Blockchain.getBalanceOfAddress. run_js.
  destruct (_ <? _); reflexivity.
Qed.

(** When [isValid()] raises, [addTransaction] raises the same error and
    the ledger is as it was. *)
Lemma addTransaction_raise (tx : Main.Transaction.t) (bc : Main.Blockchain.t)
      (e : Js.error) :
  Main.Transaction.isValid tx = Js.Throw e ->
  Main.Blockchain.addTransaction tx bc = (Js.Throw e, bc).
Proof.
  intros Hv. unfold Main.Blockchain.addTransaction. run_js. rewrite Hv.
  reflexivity.
Qed.

End LedgerFacts.

(** C6 (the code departs from it). [minePendingTransactions] must build
    the new block with [index] one more than the latest block's, mine it
    and append it. In [src/blockchain.js] every other part of the claim
    holds of a call that returns (the whole pool plus one reward, linked to
    the latest hash, appended, pool emptied), but the three-argument
    [Block] constructor never assigns [index]: it is [undefined] on the
    appended block. In the second copy the block gets its index and a
    [null] hash, on which [mineBlock] raises: the call never returns,
    nothing is appended and the reward stays in the pool. *)
Theorem C6_minePendingTransactions_index_and_null_hash :
  (forall (fuel : nat) (now_tx now_block : Z) (addr : string)
          (bc bc' : Main.Blockchain.t),
      Main.Blockchain.minePendingTransactions fuel now_tx now_block addr bc
      = (Js.Ret tt, bc') ->
      exists latest mined,
        Main.Blockchain.getLatestBlock bc = Some latest
        /\ Main.Blockchain.chain bc' = (Main.Blockchain.chain bc ++ [mined])%list
        /\ Main.Blockchain.pendingTransactions bc' = []
        /\ Main.Block.transactions mined
           = (Main.Blockchain.pendingTransactions bc
              ++ [Main.Transaction.new now_tx None addr (Main.Blockchain.mineReward bc)])%list
        /\ Main.Block.previousHash mined = Main.Block.hash latest
        /\ Main.Block.meets_target (Main.Blockchain.difficulty bc)
             (Main.Block.hash mined) = true
        /\ Main.Block.index mined = None)
  /\
  (forall (fuel : nat) (now_tx now_block : Z) (addr : string)
          (bc : Alt.Blockchain.t),
      exists e,
        Alt.Blockchain.minePendingTransactions fuel now_tx now_block addr bc
        = (Js.Throw e,
           Alt.Blockchain.set_pendingTransactions bc
             (Alt.Blockchain.pendingTransactions bc
              ++ [Alt.Transaction.new now_tx None addr (Alt.Blockchain.mineReward bc)]))).
Proof.
  split.
  - intros fuel now_tx now_block addr bc bc' Hrun.
    apply main_minePendingTransactions_inv in Hrun.
    destruct Hrun as (latest & mined & Hl & Hm & ->).
    exists latest, mined. simpl.
    pose proof (mineBlock_frame _ _ _ _ Hm) as (Hi & Hp & Htx & _).
    pose proof (mineBlock_meets_target _ _ _ _ Hm) as Ht.
    simpl in Hi, Hp, Htx. unfold main_reward in Htx. auto 10.
  - intros. apply alt_minePendingTransactions_raises.
Qed.

(** The first block mined on a fresh ledger of [src/blockchain.js]. *)
Lemma C6_minePendingTransactions_witness :
  exists bc',
    Main.Blockchain.minePendingTransactions
      1 1700000004100 1700000004157 "04a1" (Main.Blockchain.new 1700000000000)
    = (Js.Ret tt, bc')
    /\ exists latest mined,
        Main.Blockchain.getLatestBlock (Main.Blockchain.new 1700000000000) = Some latest
        /\ Main.Blockchain.chain bc'
           = (Main.Blockchain.chain (Main.Blockchain.new 1700000000000) ++ [mined])%list
        /\ Main.Blockchain.pendingTransactions bc' = []
        /\ Main.Block.transactions mined
           = ([] ++ [Main.Transaction.new 1700000004100 None "04a1" 100])%list
        /\ Main.Block.previousHash mined = Main.Block.hash latest
        /\ Main.Block.meets_target 4 (Main.Block.hash mined) = true
        /\ Main.Block.index mined = None.
Proof.
  eexists. split.
  - vm_compute. reflexivity.
  - apply (proj1 C6_minePendingTransactions_index_and_null_hash
                 1%nat 1700000004100 1700000004157 "04a1"
                 (Main.Blockchain.new 1700000000000)).
    vm_compute. reflexivity.
Defined.

(** C7 (the code departs from it). A transaction of amount at most 0 must
    be declined without an exception. [addTransaction] of
    [src/blockchain.js] first calls [transaction.isValid()], with no
    handler: on a transaction that was never signed the outcome of the
    call is the outcome of the library's [verify] on an [undefined]
    signature, before the amount is looked at. With a library that raises
    there, as [toy_ec] does, a transfer of amount 0 makes [addTransaction]
    raise. The second copy declines every transaction fresh from its
    constructor and returns. *)
Theorem C7_addTransaction_raises_on_unsigned :
  (forall (ec : Elliptic) (now : Z) (sender : option string)
          (recipient : string) (bc : Main.Blockchain.t),
      let tx := Main.Transaction.new now sender recipient 0 in
      Main.Blockchain.addTransaction tx bc
      = (Js.obind
           (Js.obind (keyFromPublic sender)
              (fun publicKey =>
                 verify publicKey (Main.Transaction.calculateHash tx) SigUndefined))
           (fun _ => Js.Ret tt),
         bc))
  /\
  (let tx := Main.Transaction.new 1700000000002 (Some "04a1") "address2" 0 in
   let bc := Main.Blockchain.new 1700000000000 in
   Main.Transaction.amount tx <= 0
   /\ exists e, @Main.Blockchain.addTransaction toy_ec tx bc = (Js.Throw e, bc))
  /\
  (forall (ec : Elliptic) (now : Z) (sender : option string)
          (recipient : string) (amount : Z) (bc : Alt.Blockchain.t),
      Alt.Blockchain.addTransaction
        (Alt.Transaction.new now sender recipient amount) bc
      = (Js.Ret tt, bc)).
Proof.
  split; [| split].
  - intros ec now sender recipient bc tx.
    rewrite <- (main_isValid_unsigned now sender recipient 0). fold tx.
    destruct (Main.Transaction.isValid tx) as [ok|e|] eqn:Hv.
    + rewrite (addTransaction_run tx bc ok Hv). destruct ok; reflexivity.
    + rewrite (addTransaction_raise tx bc e Hv). reflexivity.
    + unfold Main.Blockchain.addTransaction. run_js. rewrite Hv. reflexivity.
  - split.
    + simpl. lia.
    + eexists. apply (@addTransaction_raise toy_ec). reflexivity.
  - intros. reflexivity.
Qed.

(** ** Balances *)

Lemma balance_tx_net (address : option string) (z : Z) (tx : Main.Transaction.t) :
  Main.Blockchain.balance_tx address z tx = z + net address tx.
Proof.
  unfold Main.Blockchain.balance_tx, net.
  destruct (option_string_eqb (Main.Transaction.sender tx) address),
           (option_string_eqb (Some (Main.Transaction.recipient tx)) address); lia.
Qed.

Lemma balance_block_sum (address : option string) (txs : list Main.Transaction.t) (z : Z) :
  fold_left (Main.Blockchain.balance_tx address) txs z
  = z + sumZ (map (net address) txs).
Proof.
  revert z. induction txs as [|tx txs IH]; intros z; simpl; [lia|].
  rewrite IH, balance_tx_net. lia.
Qed.

Lemma sumZ_app (l1 l2 : list Z) : sumZ (l1 ++ l2) = sumZ l1 + sumZ l2.
Proof. induction l1 as [|x l1 IH]; simpl; [reflexivity | rewrite IH; lia]. Qed.

Lemma balance_chain_sum (address : option string) (chain : list Main.Block.t) (z : Z) :
  fold_left (Main.Blockchain.balance_block address) chain z
  = z + balance_sum address chain.
Proof.
  unfold balance_sum, all_transactions.
  revert z. induction chain as [|b chain IH]; intros z; simpl; [lia|].
  rewrite IH. unfold Main.Blockchain.balance_block.
  rewrite balance_block_sum, map_app, sumZ_app. lia.
Qed.

(** ** Balances as doubles *)

Lemma fold_left_flat_map {A B C : Type} (f : A -> B -> A) (g : C -> list B)
      (l : list C) (z : A) :
  fold_left f (flat_map g l) z
  = fold_left (fun acc x => fold_left f (g x) acc) l z.
Proof.
  revert z. induction l as [|x l IH]; intros z; simpl; [reflexivity|].
  rewrite fold_left_app. apply IH.
Qed.



Lemma doubles_balance_chain (a : option string) (chain : list Doubles.Block.t)
      (z : float) :
  fold_left (Doubles.Blockchain.balance_block a) chain z
  = fold_left (Doubles.Blockchain.balance_tx a)
              (flat_map Doubles.Block.transactions chain) z.
Proof. rewrite fold_left_flat_map. reflexivity. Qed.

Lemma doubles_getBalanceOfAddress_run (a : option string)
      (bc : Doubles.Blockchain.t) :
  Doubles.Blockchain.getBalanceOfAddress a bc
  = (Js.Ret (fold_left (Doubles.Blockchain.balance_block a)
                       (Doubles.Blockchain.chain bc) 0%float), bc).
Proof. reflexivity. Qed.





(** C10. The three observers leave the ledger as it was: chain (with its
    blocks and transactions) and pool are the same after
    [getBalanceOfAddress], [getAllTransactionForWallet] and
    [isChainValid], also when [isChainValid] raises. *)
Theorem C10_observers_read_only (ec : Elliptic) (bc : Main.Blockchain.t)
        (address : option string) (now : Z) :
  snd (Main.Blockchain.getBalanceOfAddress address bc) = bc
  /\ snd (Main.Blockchain.getAllTransactionForWallet address bc) = bc
  /\ snd (Main.Blockchain.isChainValid now bc) = bc.
Proof.
  split; [reflexivity | split; [reflexivity |]].
  unfold Main.Blockchain.isChainValid, Js.bind, Js.get. cbv beta iota.
  destruct (Main.Blockchain.chain bc) as [|genesis rest]; [reflexivity|].
  destruct (negb _); reflexivity.
Qed.

(** ** The genesis check of [isChainValid] *)

Lemma num_to_string_inj (x y : Z) :
  Js.num_to_string x = Js.num_to_string y -> x = y.
Proof.
  unfold Js.num_to_string. intros H.
  assert (Hnn : forall z, Z.to_int z <> Decimal.Pos Decimal.Nil
                          /\ Z.to_int z <> Decimal.Neg Decimal.Nil).
  { intros [|p|p]; simpl; split; try discriminate;
      intros E; injection E; apply DecimalPos.Unsigned.to_uint_nonnil. }
  apply DecimalZ.to_int_inj.
  assert (Hs : Some (Z.to_int x) = Some (Z.to_int y)).
  { rewrite <- (NilZero.isi (Z.to_int x)), <- (NilZero.isi (Z.to_int y));
      try apply Hnn. now rewrite H. }
  now injection Hs.
Qed.

Lemma string_of_uint_no_comma (d : Decimal.uint) :
  no_comma (NilEmpty.string_of_uint d).
Proof. induction d; simpl; auto; split; auto; discriminate. Qed.

Lemma num_to_string_no_comma (z : Z) : no_comma (Js.num_to_string z).
Proof.
  unfold Js.num_to_string.
  destruct (Z.to_int z) as [d|d]; simpl.
  - destruct d; simpl; auto using string_of_uint_no_comma;
      try (split; [discriminate | apply string_of_uint_no_comma]).
    split; [discriminate | exact I].
  - split; [discriminate|].
    destruct d; simpl; auto using string_of_uint_no_comma;
      try (split; [discriminate | apply string_of_uint_no_comma]).
    split; [discriminate | exact I].
Qed.

Lemma no_comma_split (d1 d2 r1 r2 : string) :
  no_comma d1 -> no_comma d2 ->
  d1 ++ String "," r1 = d2 ++ String "," r2 -> d1 = d2.
Proof.
  revert d2. induction d1 as [|c d1 IH]; intros [|c2 d2]; simpl; intros H1 H2 E.
  - reflexivity.
  - injection E as Ec _. destruct H2 as [H2 _]. congruence.
  - injection E as Ec _. destruct H1 as [H1 _]. congruence.
  - injection E as -> E. f_equal. apply IH; tauto.
Qed.

Lemma string_app_assoc (a b c : string) : (a ++ b) ++ c = a ++ (b ++ c).
Proof. induction a as [|x a IH]; simpl; [reflexivity | now rewrite IH]. Qed.

Lemma string_app_inv_head (s a b : string) : s ++ a = s ++ b -> a = b.
Proof.
  induction s as [|x s IH]; simpl; intros H; [exact H|].
  injection H as H. auto.
Qed.

(** The JSON form of an object whose third property is a number: what
    precedes the number, the number, a comma and the rest. *)
Lemma object_third_number (p1 p2 key n p4 p5 : string) :
  Json.object [p1; p2; Json.prop key n; p4; p5]
  = (("{" ++ p1 ++ "," ++ p2 ++ ",") ++ Json.str key ++ ":")
      ++ (n ++ String "," (p4 ++ "," ++ p5 ++ "}")).
Proof.
  unfold Json.object, Json.prop. cbn [Json.commas].
  repeat rewrite string_app_assoc. reflexivity.
Qed.

(** Two genesis blocks have the same JSON form only when built at the
    same clock reading. *)
Lemma genesis_json_inj (t t' : Z) :
  Main.Block.json (Main.Blockchain.createGenesisBlock t)
  = Main.Block.json (Main.Blockchain.createGenesisBlock t') ->
  t = t'.
Proof.
  unfold Main.Block.json, Main.Blockchain.createGenesisBlock, Main.Block.new.
  cbn [Main.Block.previousHash Main.Block.transactions Main.Block.timestamp
       Main.Block.hash Main.Block.nonce Main.Block.index map app].
  rewrite !object_third_number. intros H.
  apply string_app_inv_head in H.
  apply no_comma_split in H; auto using num_to_string_no_comma.
  now apply num_to_string_inj.
Qed.

(** [isChainValid()] answers false on a chain that starts with the
    genesis block of an earlier clock reading. *)
Lemma isChainValid_stale_genesis {ec : Elliptic} (t0 now : Z)
      (rest : list Main.Block.t) (bc : Main.Blockchain.t) :
  Main.Blockchain.chain bc = Main.Blockchain.createGenesisBlock t0 :: rest ->
  now <> t0 ->
  Main.Blockchain.isChainValid now bc = (Js.Ret false, bc).
Proof.
  intros Hc Hne.
  unfold Main.Blockchain.isChainValid, Js.bind, Js.get. cbv beta iota.
  rewrite Hc.
  destruct (String.eqb_spec (Main.Block.json (Main.Blockchain.createGenesisBlock now))
                            (Main.Block.json (Main.Blockchain.createGenesisBlock t0)))
    as [E|E].
  - apply genesis_json_inj in E. contradiction.
  - reflexivity.
Qed.

(** The chain after the run of [src/main.js]: the genesis block, a block
    holding the first reward, and a block holding the signed transfer
    followed by the second reward. *)
Lemma main_run_chain {ec : Elliptic} (fuel : nat) (myKey : keypair)
      (recipient : string) (t0 t1 t2 t3 t4 t5 : Z) (bc : Main.Blockchain.t) :
  sign_verify_roundtrip ec ->
  main_run fuel myKey recipient 100 t0 t1 t2 t3 t4 t5 = (Js.Ret tt, bc) ->
  exists m1 m2 sig,
    Main.Blockchain.chain bc = [Main.Blockchain.createGenesisBlock t0; m1; m2]
    /\ Main.Block.transactions m1
       = [Main.Transaction.new t1 None (getPublic myKey) 100]
    /\ Main.Block.transactions m2
       = [Main.Transaction.mk (Some (getPublic myKey)) recipient 100 t3 sig;
          Main.Transaction.new t4 None (getPublic myKey) 100].
Proof.
  intros Hrt. unfold main_run.
  unfold Js.bind at 1.
  destruct (Main.Blockchain.minePendingTransactions fuel t1 t2 (getPublic myKey)
              (Main.Blockchain.new t0)) as [[[]| |] bc1] eqn:H1; try discriminate.
  apply main_minePendingTransactions_inv in H1.
  destruct H1 as (latest & m1 & Hl & Hm1 & ->).
  apply mineBlock_frame in Hm1. destruct Hm1 as (_ & _ & Htx1 & _).
  cbn [Main.Block.transactions Main.Block.new Main.Blockchain.pendingTransactions
       Main.Blockchain.new app] in Htx1.
  pose (tx0 := Main.Transaction.new t3 (Some (getPublic myKey)) recipient 100).
  destruct (main_signTransaction_spec myKey tx0) as [_ Hsign].
  specialize (Hsign eq_refl).
  unfold Js.bind at 1. unfold Js.lift at 1. fold tx0. rewrite Hsign.
  cbn [Js.obind].
  set (tx1 := Main.Transaction.set_signature tx0 _).
  assert (Hv : Main.Transaction.isValid tx1 = Js.Ret true)
    by (eapply main_sign_then_isValid; eauto).
  unfold Js.bind at 1.
  rewrite (addTransaction_run tx1 _ true Hv).
  cbn [negb Main.Blockchain.chain Main.Blockchain.new app].
  rewrite balance_chain_sum.
  assert (Hbal : balance_sum (Main.Transaction.sender tx1)
                   [Main.Blockchain.createGenesisBlock t0; m1] = 100).
  { unfold balance_sum, all_transactions. cbn [flat_map].
    rewrite Htx1. cbn. unfold net. cbn.
    rewrite String.eqb_refl. reflexivity. }
  rewrite Hbal. cbn [Main.Transaction.amount tx1 tx0 Main.Transaction.set_signature
                     Main.Transaction.new].
  change (100 <=? 0) with false. change (0 + 100 <? 100) with false. cbv iota.
  intros H2.
  destruct (Main.Blockchain.minePendingTransactions fuel t4 t5 _ _)
    as [o2 bc2] eqn:Hm2 in H2.
  injection H2 as -> ->.
  apply main_minePendingTransactions_inv in Hm2.
  destruct Hm2 as (latest2 & m2 & Hl2 & Hm2 & ->).
  apply mineBlock_frame in Hm2. destruct Hm2 as (_ & _ & Htx2 & _).
  cbn in Htx2.
  exists m1, m2. eexists. repeat split; [exact Htx1 | exact Htx2].
Qed.

(** C9 (the code departs from it). After the honest run (construct, mine
    a reward of 100 to A, admit a signed transfer of 100 from A to B, mine
    again) the balance of B is 100, as claimed; but [isChainValid()]
    rebuilds the genesis block with the clock of the moment, so as soon as
    the clock has moved since the ledger was built the comparison with
    [chain[0]] fails and the answer is false. *)
Theorem C9_honest_run_balance_and_stale_genesis (ec : Elliptic)
        (fuel : nat) (myKey : keypair) (B : string)
        (t0 t1 t2 t3 t4 t5 now : Z) (bc : Main.Blockchain.t) :
  sign_verify_roundtrip ec ->
  B <> getPublic myKey ->
  main_run fuel myKey B 100 t0 t1 t2 t3 t4 t5 = (Js.Ret tt, bc) ->
  Main.Blockchain.getBalanceOfAddress (Some B) bc = (Js.Ret 100, bc)
  /\ (now <> t0 -> Main.Blockchain.isChainValid now bc = (Js.Ret false, bc)).
Proof.
  intros Hrt HB Hrun.
  destruct (main_run_chain _ _ _ _ _ _ _ _ _ _ Hrt Hrun) as (m1 & m2 & sig & Hc & H1 & H2).
  split.
  - rewrite getBalanceOfAddress_run, balance_chain_sum. do 2 f_equal.
    unfold balance_sum, all_transactions. rewrite Hc. cbn [flat_map].
    rewrite H1, H2. cbn. unfold net. cbn.
    rewrite String.eqb_refl.
    destruct (String.eqb_spec (getPublic myKey) B) as [E|_]; [congruence|].
    reflexivity.
  - intros Hne. eapply isChainValid_stale_genesis; eauto.
Qed.

(** The run of [src/main.js] with the key ["a1"] of [toy_ec], a transfer
    to ["address2"], and a validation 100 seconds after construction. *)
Lemma C9_honest_run_witness :
  exists bc,
    @main_run toy_ec 1 "a1" "address2" 100
      1700000000000 1700000004100 1700000004157
      1700000005000 1700000095900 1700000095941 = (Js.Ret tt, bc)
    /\ Main.Blockchain.getBalanceOfAddress (Some "address2") bc = (Js.Ret 100, bc)
    /\ @Main.Blockchain.isChainValid toy_ec 1700000100000 bc = (Js.Ret false, bc).
Proof.
  eexists. split.
  - vm_compute. reflexivity.
  - destruct (C9_honest_run_balance_and_stale_genesis
                toy_ec 1%nat "a1" "address2"
                1700000000000 1700000004100 1700000004157
                1700000005000 1700000095900 1700000095941 1700000100000
                _ toy_ec_roundtrip ltac:(discriminate)
                ltac:(vm_compute; reflexivity)) as [Hbalance Hvalid].
    split; [exact Hbalance | apply Hvalid; discriminate].
Defined.

(** With the clock of the validation equal to that of the construction,
    the genesis check passes and the audit reaches the first reward, whose
    signature was never assigned: under [toy_ec] it raises there. *)
Example honest_run_same_clock :
  let bc := snd (@main_run toy_ec 1 "a1" "address2" 100
                   1700000000000 1700000004100 1700000004157
                   1700000005000 1700000095900 1700000095941) in
  exists e, fst (@Main.Blockchain.isChainValid toy_ec 1700000000000 bc) = Js.Throw e.
Proof. eexists. vm_compute. reflexivity. Qed.

(** Enough fuel: when some number of passes reaches the target,
    [minePendingTransactions] returns with the mined block appended. *)
Lemma main_minePendingTransactions_returns
      (k : nat) (now_tx now_block : Z) (addr : string)
      (bc : Main.Blockchain.t) (latest : Main.Block.t) :
  Main.Blockchain.getLatestBlock bc = Some latest ->
  Main.Block.meets_target (Main.Blockchain.difficulty bc)
    (Main.Block.hash
       (Nat.iter k Main.Block.mine_step
          (Main.Block.new (Main.Block.hash latest)
             (Main.Blockchain.pendingTransactions bc ++ [main_reward now_tx addr bc])
             now_block))) = true ->
  exists mined,
    Main.Blockchain.minePendingTransactions k now_tx now_block addr bc
    = (Js.Ret tt,
       Main.Blockchain.mk (Main.Blockchain.chain bc ++ [mined])
                          (Main.Blockchain.difficulty bc) []
                          (Main.Blockchain.mineReward bc)).
Proof.
  intros Hl Hk. apply mineBlock_terminates in Hk. destruct Hk as [mined Hm].
  exists mined. now apply main_minePendingTransactions_run with (latest := latest).
Qed.

(** * Further properties of the code *)

(** ** [hasValidTransactions] *)

Section BlockAudit.
Context {ec : Elliptic}.

Lemma all_valid_true_iff (txs : list Main.Transaction.t) :
  Main.Block.all_valid txs = Js.Ret true
  <-> Forall (fun tx => Main.Transaction.isValid tx = Js.Ret true) txs.
Proof.
  induction txs as [|tx txs IH]; simpl.
  - split; auto.
  - destruct (Main.Transaction.isValid tx) as [[|]| |] eqn:E; simpl.
    + rewrite IH. split.
      * intros H. constructor; auto.
      * intros H. inversion H; auto.
    + split; [discriminate | intros H; inversion H; congruence].
    + split; [discriminate | intros H; inversion H; congruence].
    + split; [discriminate | intros H; inversion H; congruence].
Qed.

Lemma all_valid_first_failure (pre post : list Main.Transaction.t)
      (tx : Main.Transaction.t) :
  Forall (fun t => Main.Transaction.isValid t = Js.Ret true) pre ->
  Main.Block.all_valid (pre ++ tx :: post)
  = Js.obind (Main.Transaction.isValid tx)
             (fun ok => if negb ok then Js.Ret false else Main.Block.all_valid post).
Proof.
  induction 1 as [|t pre Ht _ IH]; simpl; [reflexivity|].
  rewrite Ht. simpl. exact IH.
Qed.

End BlockAudit.

(** X1. [hasValidTransactions()] answers true exactly when [isValid()]
    answers true on every transaction of the block (so also on a block
    without transactions); it stops at the first transaction that does
    not: the answer is false if that one is invalid and its error if it
    raises, whatever follows it in the block. *)
Theorem hasValidTransactions_first_failure (ec : Elliptic) (b : Main.Block.t) :
  (Main.Block.hasValidTransactions b = Js.Ret true
   <-> Forall (fun tx => Main.Transaction.isValid tx = Js.Ret true)
              (Main.Block.transactions b))
  /\
  (forall pre tx post,
      Main.Block.transactions b = (pre ++ tx :: post)%list ->
      Forall (fun t => Main.Transaction.isValid t = Js.Ret true) pre ->
      (Main.Transaction.isValid tx = Js.Ret false ->
       Main.Block.hasValidTransactions b = Js.Ret false)
      /\ (forall e, Main.Transaction.isValid tx = Js.Throw e ->
                    Main.Block.hasValidTransactions b = Js.Throw e)).
Proof.
  unfold Main.Block.hasValidTransactions. split.
  - apply all_valid_true_iff.
  - intros pre tx post -> Hpre.
    rewrite (all_valid_first_failure pre post tx Hpre).
    split; [intros -> | intros e ->]; reflexivity.
Qed.

(** A block whose second transaction carries a signature made for another
    transfer, followed by an unsigned one that would raise. *)
Lemma hasValidTransactions_first_failure_witness :
  let forged := Main.Transaction.set_signature
                  (Main.Transaction.new 1700000005001 (Some "04a1") "address2" 7)
                  (Main.Transaction.signature signed_transfer) in
  let unsigned := Main.Transaction.new 1700000005002 (Some "04a1") "address2" 1 in
  @Main.Block.hasValidTransactions toy_ec
    (Main.Block.new "0" [signed_transfer; forged; unsigned] 1700000006000)
  = Js.Ret false.
Proof.
  intros forged unsigned.
  apply (proj1 (proj2 (hasValidTransactions_first_failure toy_ec
                         (Main.Block.new "0" [signed_transfer; forged; unsigned]
                                         1700000006000))
                 [signed_transfer] forged [unsigned] eq_refl
                 ltac:(repeat constructor))).
  vm_compute. reflexivity.
Defined.

(** ** [getAllTransactionForWallet] *)

Lemma wallet_tx_filter (address : option string)
      (txs acc : list Main.Transaction.t) :
  fold_left (Main.Blockchain.wallet_tx address) txs acc
  = (acc ++ filter (involves address) txs)%list.
Proof.
  revert acc. induction txs as [|tx txs IH]; intros acc; simpl.
  - now rewrite app_nil_r.
  - rewrite IH. unfold Main.Blockchain.wallet_tx, involves.
    destruct (_ || _); [now rewrite <- app_assoc | reflexivity].
Qed.

Lemma wallet_chain_filter (address : option string)
      (chain : list Main.Block.t) (acc : list Main.Transaction.t) :
  fold_left (Main.Blockchain.wallet_block address) chain acc
  = (acc ++ filter (involves address) (all_transactions chain))%list.
Proof.
  unfold all_transactions.
  revert acc. induction chain as [|b chain IH]; intros acc; simpl.
  - now rewrite app_nil_r.
  - rewrite IH. unfold Main.Blockchain.wallet_block.
    rewrite wallet_tx_filter, filter_app, app_assoc. reflexivity.
Qed.

(** X2. [getAllTransactionForWallet(a)] returns, in chain order and then
    block order, exactly the transactions of the chain whose sender or
    recipient is [a]; pending transactions are not among them. *)
Theorem getAllTransactionForWallet_filter (bc : Main.Blockchain.t)
        (a : option string) :
  Main.Blockchain.getAllTransactionForWallet a bc
  = (Js.Ret (filter (involves a)
                    (flat_map Main.Block.transactions (Main.Blockchain.chain bc))),
     bc).
Proof.
  unfold Main.Blockchain.getAllTransactionForWallet. run_js.
  rewrite wallet_chain_filter. reflexivity.
Qed.

Lemma doubles_wallet_tx_filter (address : option string)
      (txs acc : list Doubles.Transaction.t) :
  fold_left (Doubles.Blockchain.wallet_tx address) txs acc
  = (acc ++ filter (involves_double address) txs)%list.
Proof.
  revert acc. induction txs as [|tx txs IH]; intros acc; simpl.
  - now rewrite app_nil_r.
  - rewrite IH. unfold Doubles.Blockchain.wallet_tx, involves_double.
    destruct (_ || _); [now rewrite <- app_assoc | reflexivity].
Qed.

Lemma doubles_wallet_chain_filter (address : option string)
      (chain : list Doubles.Block.t) :
  fold_left (Doubles.Blockchain.wallet_block address) chain []
  = filter (involves_double address)
           (flat_map Doubles.Block.transactions chain).
Proof.
  transitivity (fold_left (Doubles.Blockchain.wallet_tx address)
                          (flat_map Doubles.Block.transactions chain) []).
  - rewrite fold_left_flat_map. reflexivity.
  - apply (doubles_wallet_tx_filter address _ []).
Qed.

(** A transaction that does not involve the address leaves the balance
    untouched: no rounding takes place for it. *)
Lemma doubles_balance_tx_not_involved (address : option string) (z : float)
      (tx : Doubles.Transaction.t) :
  involves_double address tx = false ->
  Doubles.Blockchain.balance_tx address z tx = z.
Proof.
  unfold involves_double, Doubles.Blockchain.balance_tx. intros H.
  apply orb_false_iff in H. destruct H as [-> ->]. reflexivity.
Qed.

Lemma doubles_balance_filter (address : option string)
      (txs : list Doubles.Transaction.t) (z : float) :
  fold_left (Doubles.Blockchain.balance_tx address)
            (filter (involves_double address) txs) z
  = fold_left (Doubles.Blockchain.balance_tx address) txs z.
Proof.
  revert z. induction txs as [|tx txs IH]; intros z; simpl; [reflexivity|].
  destruct (involves_double address tx) eqn:E; simpl.
  - apply IH.
  - rewrite (doubles_balance_tx_not_involved _ _ _ E). apply IH.
Qed.

(** X3. The balance of an address is decided by its wallet history alone:
    [getBalanceOfAddress(a)] is what its own loop body computes, from 0,
    over the list that [getAllTransactionForWallet(a)] returns, in the
    order of that list. *)
Theorem getBalanceOfAddress_replays_wallet (bc : Doubles.Blockchain.t)
        (a : option string) :
  fst (Doubles.Blockchain.getBalanceOfAddress a bc)
  = Js.obind (fst (Doubles.Blockchain.getAllTransactionForWallet a bc))
             (fun txs =>
                Js.Ret (fold_left (Doubles.Blockchain.balance_tx a) txs 0%float)).
Proof.
  rewrite doubles_getBalanceOfAddress_run, doubles_balance_chain.
  unfold Doubles.Blockchain.getAllTransactionForWallet. run_js.
  rewrite doubles_wallet_chain_filter, doubles_balance_filter. reflexivity.
Qed.

(** The replay is of doubles, not of exact amounts: a wallet that received
    1 and then sent 2^54 to itself has balance 0. *)
Example self_transfer_loses_holding :
  Doubles.Blockchain.getBalanceOfAddress (Some "04a1") ledger_self_transfer
  = (Js.Ret 0%float, ledger_self_transfer).
Proof. vm_compute. reflexivity. Qed.

(** ** The proof-of-work search *)


Lemma mineBlock_nonce_le (fuel d : nat) (b b' : Main.Block.t) :
  Main.Block.mineBlock fuel d b = Js.Ret b' ->
  (Main.Block.nonce b <= Main.Block.nonce b')%nat.
Proof.
  revert b. induction fuel as [|fuel IH]; intros b; rewrite mineBlock_unfold;
    destruct (Main.Block.meets_target d (Main.Block.hash b)); intros H;
    try discriminate; try (injection H as <-; lia).
  apply IH in H. simpl in H. lia.
Qed.

(** X4. [mineBlock] writes [nonce] and [hash] only: the index, the link to
    the previous block, the transactions and the timestamp of the mined
    block are those it was given, and the nonce never decreases. *)
Theorem mineBlock_touches_nonce_and_hash_only (fuel d : nat) (b b' : Main.Block.t) :
  Main.Block.mineBlock fuel d b = Js.Ret b' ->
  Main.Block.index b' = Main.Block.index b
  /\ Main.Block.previousHash b' = Main.Block.previousHash b
  /\ Main.Block.transactions b' = Main.Block.transactions b
  /\ Main.Block.timestamp b' = Main.Block.timestamp b
  /\ (Main.Block.nonce b <= Main.Block.nonce b')%nat.
Proof.
  intros H. pose proof (mineBlock_frame _ _ _ _ H) as (Hi & Hp & Ht & Hs).
  pose proof (mineBlock_nonce_le _ _ _ _ H). auto.
Qed.

Lemma mineBlock_touches_nonce_and_hash_only_witness :
  let b := Main.Block.new
             (Main.Block.hash (Main.Blockchain.createGenesisBlock 1700000000000))
             [signed_transfer] 1700000004157 in
  Main.Block.index signed_block = Main.Block.index b
  /\ Main.Block.previousHash signed_block = Main.Block.previousHash b
  /\ Main.Block.transactions signed_block = Main.Block.transactions b
  /\ Main.Block.timestamp signed_block = Main.Block.timestamp b
  /\ (Main.Block.nonce b <= Main.Block.nonce signed_block)%nat.
Proof.
  intros b.
  apply (mineBlock_touches_nonce_and_hash_only 1 4 b signed_block).
  vm_compute. reflexivity.
Defined.



(** ** Difficulties no digest can meet *)










(** ** The latest block and the empty chain *)

Lemma nth_error_last {A : Type} (l : list A) (x : A) :
  nth_error (l ++ [x]) (List.length (l ++ [x]) - 1) = Some x.
Proof.
  rewrite length_app. simpl.
  replace (List.length l + 1 - 1)%nat with (List.length l) by lia.
  rewrite nth_error_app2 by lia. now rewrite Nat.sub_diag.
Qed.

(** X7. [getLatestBlock()] is the last block of the chain, and
    [undefined] exactly when the chain is empty. *)
Theorem getLatestBlock_last (bc : Main.Blockchain.t) :
  (forall b, Main.Blockchain.getLatestBlock bc = Some b
             <-> exists pre, Main.Blockchain.chain bc = (pre ++ [b])%list)
  /\ (Main.Blockchain.getLatestBlock bc = None <-> Main.Blockchain.chain bc = []).
Proof.
  unfold Main.Blockchain.getLatestBlock.
  destruct (Main.Blockchain.chain bc) as [|b0 rest] using rev_ind.
  - simpl. split.
    + intros b. split; [discriminate|]. intros [pre H]. destruct pre; discriminate.
    + tauto.
  - rewrite nth_error_last. split.
    + intros b. split.
      * intros [= <-]. now exists rest.
      * intros [pre H]. apply app_inj_tail in H. destruct H as [_ ->]. reflexivity.
    + split; [discriminate|]. intros H. destruct rest; discriminate.
Qed.

(** X8. On a ledger whose chain has been emptied,
    [minePendingTransactions] raises a [TypeError] when it reads the hash
    of the missing latest block: the reward has already been pushed to the
    pool and stays there, and the chain is still empty; [isChainValid()]
    answers false on such a ledger. *)
Theorem empty_chain_behaviour (ec : Elliptic) (fuel : nat)
        (now_tx now_block now : Z) (addr : string) (bc : Main.Blockchain.t) :
  Main.Blockchain.chain bc = [] ->
  (exists msg,
      Main.Blockchain.minePendingTransactions fuel now_tx now_block addr bc
      = (Js.Throw (Js.TypeError msg),
         Main.Blockchain.set_pendingTransactions bc
           (Main.Blockchain.pendingTransactions bc ++ [main_reward now_tx addr bc])))
  /\ Main.Blockchain.isChainValid now bc = (Js.Ret false, bc).
Proof.
  intros Hc. split.
  - unfold Main.Blockchain.minePendingTransactions. run_js.
    unfold Main.Blockchain.getLatestBlock. simpl. rewrite Hc. simpl.
    eexists. reflexivity.
  - unfold Main.Blockchain.isChainValid, Js.bind, Js.get. cbv beta iota.
    rewrite Hc. reflexivity.
Qed.

Lemma empty_chain_behaviour_witness :
  let bc := Main.Blockchain.mk [] 4 [] 100 in
  (exists msg,
      Main.Blockchain.minePendingTransactions 10 1700000004100 1700000004157 "04a1" bc
      = (Js.Throw (Js.TypeError msg),
         Main.Blockchain.mk [] 4 [Main.Transaction.new 1700000004100 None "04a1" 100] 100))
  /\ @Main.Blockchain.isChainValid toy_ec 1700000000000 bc = (Js.Ret false, bc).
Proof.
  intros bc.
  apply (empty_chain_behaviour toy_ec 10 1700000004100 1700000004157 1700000000000
                               "04a1" bc eq_refl).
Defined.

(** ** What the two mutators keep *)

Section Mutators.
Context {ec : Elliptic}.

Lemma addTransaction_cases (tx : Main.Transaction.t) (bc : Main.Blockchain.t) :
  (exists o, Main.Blockchain.addTransaction tx bc = (o, bc))
  \/ (Main.Transaction.isValid tx = Js.Ret true
      /\ 0 < Main.Transaction.amount tx
      /\ Main.Transaction.amount tx
         <= fold_left (Main.Blockchain.balance_block (Main.Transaction.sender tx))
                      (Main.Blockchain.chain bc) 0
      /\ Main.Blockchain.addTransaction tx bc
         = (Js.Ret tt,
            Main.Blockchain.set_pendingTransactions bc
              (Main.Blockchain.pendingTransactions bc ++ [tx]))).
Proof.
  destruct (Main.Transaction.isValid tx) as [ok|e|] eqn:Hv.
  - rewrite (addTransaction_run tx bc ok Hv).
    destruct ok; simpl; [| left; eexists; reflexivity].
    destruct (Main.Transaction.amount tx <=? 0) eqn:Ea; [left; eexists; reflexivity|].
    destruct (_ <? _) eqn:Eb; [left; eexists; reflexivity|].
    right. apply Z.leb_gt in Ea. apply Z.ltb_ge in Eb. auto.
  - left. rewrite (addTransaction_raise tx bc e Hv). eexists; reflexivity.
  - left. unfold Main.Blockchain.addTransaction. run_js. rewrite Hv.
    eexists; reflexivity.
Qed.

Lemma minePendingTransactions_cases (fuel : nat) (now_tx now_block : Z)
      (addr : string) (bc : Main.Blockchain.t) :
  (exists o, o <> Js.Ret tt
             /\ Main.Blockchain.minePendingTransactions fuel now_tx now_block addr bc
                = (o, Main.Blockchain.set_pendingTransactions bc
                        (Main.Blockchain.pendingTransactions bc
                         ++ [main_reward now_tx addr bc]))
             /\ (o = Js.Timeout \/ Main.Blockchain.chain bc = []))
  \/ (exists latest mined,
         Main.Blockchain.getLatestBlock bc = Some latest
         /\ Main.Block.mineBlock fuel (Main.Blockchain.difficulty bc)
              (Main.Block.new (Main.Block.hash latest)
                 (Main.Blockchain.pendingTransactions bc ++ [main_reward now_tx addr bc])
                 now_block) = Js.Ret mined
         /\ Main.Blockchain.minePendingTransactions fuel now_tx now_block addr bc
            = (Js.Ret tt,
               Main.Blockchain.mk (Main.Blockchain.chain bc ++ [mined])
                                  (Main.Blockchain.difficulty bc) []
                                  (Main.Blockchain.mineReward bc))).
Proof.
  destruct (Main.Blockchain.getLatestBlock bc) as [latest|] eqn:Hl.
  - destruct (Main.Block.mineBlock fuel (Main.Blockchain.difficulty bc)
                (Main.Block.new (Main.Block.hash latest)
                   (Main.Blockchain.pendingTransactions bc ++ [main_reward now_tx addr bc])
                   now_block)) as [mined|e|] eqn:Hm.
    + right. exists latest, mined. split; [reflexivity|]. split; [exact Hm|].
      now apply main_minePendingTransactions_run with (latest := latest).
    + exfalso. revert Hm. generalize (Main.Block.new (Main.Block.hash latest)
                   (Main.Blockchain.pendingTransactions bc ++ [main_reward now_tx addr bc])
                   now_block).
      induction fuel as [|fuel IH]; intros b; rewrite mineBlock_unfold;
        destruct (Main.Block.meets_target _ _); try discriminate. apply IH.
    + left. exists Js.Timeout. split; [discriminate|]. split; [|now left].
      unfold Main.Blockchain.minePendingTransactions. run_js.
      unfold Main.Blockchain.getLatestBlock in *. simpl. rewrite Hl.
      unfold main_reward in Hm. rewrite Hm. reflexivity.
  - left. eexists. split; [|split].
    2:{ unfold Main.Blockchain.minePendingTransactions. run_js.
        unfold Main.Blockchain.getLatestBlock in *. simpl. rewrite Hl. reflexivity. }
    + discriminate.
    + right. unfold Main.Blockchain.getLatestBlock in Hl.
      apply nth_error_None in Hl. destruct (Main.Blockchain.chain bc); [reflexivity|].
      simpl in Hl. lia.
Qed.

End Mutators.

(** X9. The chain is append-only and the parameters are fixed: whatever
    their outcome, [addTransaction] leaves the chain as it was and
    [minePendingTransactions] leaves it as it was or with one block added
    at the end; neither changes [difficulty] or [mineReward], and
    [addTransaction] never removes or reorders pending transactions. *)
Theorem mutators_keep_history (ec : Elliptic) (bc : Main.Blockchain.t) :
  (forall tx o bc',
      Main.Blockchain.addTransaction tx bc = (o, bc') ->
      Main.Blockchain.chain bc' = Main.Blockchain.chain bc
      /\ Main.Blockchain.difficulty bc' = Main.Blockchain.difficulty bc
      /\ Main.Blockchain.mineReward bc' = Main.Blockchain.mineReward bc
      /\ (Main.Blockchain.pendingTransactions bc' = Main.Blockchain.pendingTransactions bc
          \/ Main.Blockchain.pendingTransactions bc'
             = (Main.Blockchain.pendingTransactions bc ++ [tx])%list))
  /\
  (forall fuel now_tx now_block addr o bc',
      Main.Blockchain.minePendingTransactions fuel now_tx now_block addr bc = (o, bc') ->
      (Main.Blockchain.chain bc' = Main.Blockchain.chain bc
       \/ exists mined,
           Main.Blockchain.chain bc' = (Main.Blockchain.chain bc ++ [mined])%list)
      /\ Main.Blockchain.difficulty bc' = Main.Blockchain.difficulty bc
      /\ Main.Blockchain.mineReward bc' = Main.Blockchain.mineReward bc).
Proof.
  split.
  - intros tx o bc' H.
    destruct (addTransaction_cases tx bc) as [[o' H']|(_ & _ & _ & H')];
      rewrite H' in H; injection H as _ <-; simpl; auto.
  - intros fuel now_tx now_block addr o bc' H.
    destruct (minePendingTransactions_cases fuel now_tx now_block addr bc)
      as [(o' & _ & H' & _)|(latest & mined & _ & _ & H')];
      rewrite H' in H; injection H as _ <-; simpl; eauto.
Qed.

Lemma mutators_keep_history_witness :
  Main.Blockchain.chain ledger_one_block
  = (Main.Blockchain.chain (Main.Blockchain.new 1700000000000)
     ++ [nth 1 (Main.Blockchain.chain ledger_one_block)
             (Main.Blockchain.createGenesisBlock 0)])%list
  /\ Main.Blockchain.difficulty ledger_one_block = 4%nat
  /\ Main.Blockchain.mineReward ledger_one_block = 100.
Proof.
  destruct (proj2 (mutators_keep_history toy_ec (Main.Blockchain.new 1700000000000))
              1%nat 1700000004100 1700000004157 "04a1" (Js.Ret tt) ledger_one_block
              ltac:(vm_compute; reflexivity)) as (_ & Hd & Hr).
  split; [vm_compute; reflexivity | split; [exact Hd | exact Hr]].
Defined.

(** ** Mining settles the pool *)

Lemma balance_sum_app (a : option string) (c1 c2 : list Main.Block.t) :
  balance_sum a (c1 ++ c2) = balance_sum a c1 + balance_sum a c2.
Proof.
  unfold balance_sum, all_transactions.
  rewrite flat_map_app, map_app, sumZ_app. reflexivity.
Qed.

Lemma balance_sum_block (a : option string) (b : Main.Block.t) :
  balance_sum a [b] = sumZ (map (net a) (Main.Block.transactions b)).
Proof.
  unfold balance_sum, all_transactions. simpl. now rewrite app_nil_r.
Qed.

Lemma getBalanceOfAddress_sum (a : option string) (bc : Main.Blockchain.t) :
  Main.Blockchain.getBalanceOfAddress a bc
  = (Js.Ret (balance_sum a (Main.Blockchain.chain bc)), bc).
Proof. rewrite getBalanceOfAddress_run, balance_chain_sum. reflexivity. Qed.

Lemma minePendingTransactions_balance
      (fuel : nat) (now_tx now_block : Z) (addr : string)
      (bc bc' : Main.Blockchain.t) (a : option string) :
  Main.Blockchain.minePendingTransactions fuel now_tx now_block addr bc
  = (Js.Ret tt, bc') ->
  balance_sum a (Main.Blockchain.chain bc')
  = balance_sum a (Main.Blockchain.chain bc)
    + sumZ (map (net a) (Main.Blockchain.pendingTransactions bc))
    + net a (main_reward now_tx addr bc).
Proof.
  intros H. apply main_minePendingTransactions_inv in H.
  destruct H as (latest & mined & _ & Hm & ->). simpl.
  apply mineBlock_frame in Hm. destruct Hm as (_ & _ & Htx & _). simpl in Htx.
  rewrite balance_sum_app, balance_sum_block, Htx, map_app, sumZ_app. simpl. lia.
Qed.

Lemma doubles_mineBlock_transactions (fuel d : nat) (b b' : Doubles.Block.t) :
  Doubles.Block.mineBlock fuel d b = Js.Ret b' ->
  Doubles.Block.transactions b' = Doubles.Block.transactions b.
Proof.
  revert b. induction fuel as [|fuel IH]; intros b;
    cbn [Doubles.Block.mineBlock];
    destruct (Main.Block.meets_target d (Doubles.Block.hash b)).
  - intros H. injection H as <-. reflexivity.
  - discriminate.
  - intros H. injection H as <-. reflexivity.
  - intros H. apply IH in H. exact H.
Qed.

(** A call of [minePendingTransactions] that returns has appended one
    block, which holds the pool followed by the reward. *)
Lemma doubles_minePendingTransactions_inv
      (fuel : nat) (now_tx now_block : Z) (addr : string)
      (bc bc' : Doubles.Blockchain.t) :
  Doubles.Blockchain.minePendingTransactions fuel now_tx now_block addr bc
  = (Js.Ret tt, bc') ->
  exists mined,
    Doubles.Blockchain.chain bc' = (Doubles.Blockchain.chain bc ++ [mined])%list
    /\ Doubles.Block.transactions mined
       = (Doubles.Blockchain.pendingTransactions bc
          ++ [Doubles.Transaction.new now_tx None addr
                (Doubles.Blockchain.mineReward bc)])%list.
Proof.
  unfold Doubles.Blockchain.minePendingTransactions. run_js.
  unfold Doubles.Blockchain.getLatestBlock. simpl.
  destruct (nth_error (Doubles.Blockchain.chain bc)
                      (List.length (Doubles.Blockchain.chain bc) - 1))
    as [latest|] eqn:Hl; [| discriminate].
  destruct (Doubles.Block.mineBlock fuel (Doubles.Blockchain.difficulty bc) _)
    as [mined| |] eqn:Hm; try discriminate.
  intros H. injection H as <-. exists mined. split; [reflexivity|].
  apply doubles_mineBlock_transactions in Hm. exact Hm.
Qed.

(** X10. Mining settles the pool into the balances: after a
    [minePendingTransactions(addr)] that returns, the balance of every
    address is what the loop body of [getBalanceOfAddress] computes when
    it goes on, from the balance before, over the pending transactions in
    pool order and then over the reward to [addr]. *)
Theorem minePendingTransactions_continues_balance
        (fuel : nat) (now_tx now_block : Z) (addr : string)
        (bc bc' : Doubles.Blockchain.t) (a : option string) (before : float) :
  Doubles.Blockchain.minePendingTransactions fuel now_tx now_block addr bc
  = (Js.Ret tt, bc') ->
  Doubles.Blockchain.getBalanceOfAddress a bc = (Js.Ret before, bc) ->
  Doubles.Blockchain.getBalanceOfAddress a bc'
  = (Js.Ret (fold_left (Doubles.Blockchain.balance_tx a)
               (Doubles.Blockchain.pendingTransactions bc
                ++ [Doubles.Transaction.new now_tx None addr
                      (Doubles.Blockchain.mineReward bc)])
               before),
     bc').
Proof.
  intros Hm Hb. apply doubles_minePendingTransactions_inv in Hm.
  destruct Hm as (mined & Hc & Htx).
  rewrite doubles_getBalanceOfAddress_run in *. injection Hb as <-.
  rewrite Hc, fold_left_app. simpl.
  unfold Doubles.Blockchain.balance_block at 1. rewrite Htx. reflexivity.
Qed.

(** The second block of a ledger whose pool holds the signed transfer of
    100: the miner held 100, sends 100 and earns 100; the recipient
    receives 100. *)
Lemma minePendingTransactions_continues_balance_witness :
  exists bc',
    Doubles.Blockchain.minePendingTransactions
      1 1700000095900 1700000095941 "04a1" doubles_pending = (Js.Ret tt, bc')
    /\ Doubles.Blockchain.pendingTransactions doubles_pending = [doubles_transfer]
    /\ Doubles.Blockchain.getBalanceOfAddress (Some "04a1") bc'
       = (Js.Ret 100%float, bc')
    /\ Doubles.Blockchain.getBalanceOfAddress (Some "address2") bc'
       = (Js.Ret 100%float, bc').
Proof.
  eexists. split; [vm_compute; reflexivity |].
  split; [reflexivity |].
  split.
  - rewrite (minePendingTransactions_continues_balance
               1 1700000095900 1700000095941 "04a1" doubles_pending _
               (Some "04a1") 100%float
               ltac:(vm_compute; reflexivity) ltac:(vm_compute; reflexivity)).
    vm_compute. reflexivity.
  - rewrite (minePendingTransactions_continues_balance
               1 1700000095900 1700000095941 "04a1" doubles_pending _
               (Some "address2") 0%float
               ltac:(vm_compute; reflexivity) ltac:(vm_compute; reflexivity)).
    vm_compute. reflexivity.
Defined.

(** ** Admission *)

(** X11. Admission looks at the chain only, never at the pool: a
    transaction that has just been admitted is admitted again when it is
    submitted a second time, so pending transfers of one sender can add up
    to more than the sender's balance. *)
Theorem addTransaction_admits_twice (ec : Elliptic)
        (tx : Main.Transaction.t) (bc : Main.Blockchain.t) :
  Main.Blockchain.addTransaction tx bc
  = (Js.Ret tt,
     Main.Blockchain.set_pendingTransactions bc
       (Main.Blockchain.pendingTransactions bc ++ [tx])) ->
  Main.Blockchain.addTransaction tx
    (Main.Blockchain.set_pendingTransactions bc
       (Main.Blockchain.pendingTransactions bc ++ [tx]))
  = (Js.Ret tt,
     Main.Blockchain.set_pendingTransactions bc
       (Main.Blockchain.pendingTransactions bc ++ [tx; tx])).
Proof.
  intros H.
  destruct (addTransaction_cases tx bc) as [[o H']|(Hv & Hpos & Hbal & _)].
  - rewrite H' in H. injection H as _ H.
    apply (f_equal Main.Blockchain.pendingTransactions) in H. simpl in H.
    apply (f_equal (@List.length _)) in H. rewrite length_app in H. simpl in H. lia.
  - rewrite (addTransaction_run tx _ true Hv). simpl.
    apply Z.leb_gt in Hpos. rewrite Hpos.
    apply Z.ltb_ge in Hbal. rewrite Hbal.
    unfold Main.Blockchain.set_pendingTransactions. simpl.
    now rewrite <- app_assoc.
Qed.

Lemma addTransaction_admits_twice_witness :
  @Main.Blockchain.addTransaction toy_ec signed_transfer
    (Main.Blockchain.set_pendingTransactions ledger_one_block [signed_transfer])
  = (Js.Ret tt,
     Main.Blockchain.set_pendingTransactions ledger_one_block
       [signed_transfer; signed_transfer])
  /\ Main.Blockchain.getBalanceOfAddress (Some "04a1") ledger_one_block
     = (Js.Ret 100, ledger_one_block)
  /\ Main.Transaction.amount signed_transfer = 100.
Proof.
  split; [| split; reflexivity].
  apply (addTransaction_admits_twice toy_ec signed_transfer ledger_one_block).
  vm_compute. reflexivity.
Defined.

Lemma is_nan_Prim2SF (x : float) :
  PrimFloat.is_nan x = true -> Prim2SF x = S754_nan.
Proof.
  unfold PrimFloat.is_nan. intros H. apply negb_true_iff in H.
  rewrite FloatAxioms.eqb_spec in H.
  destruct (Prim2SF x) as [s|s| |s m e]; try reflexivity.
  - destruct s; discriminate.
  - destruct s; discriminate.
  - exfalso. unfold SFeqb, SFcompare in H.
    rewrite Z.compare_refl, Pos.compare_cont_refl in H.
    destruct s; discriminate.
Qed.

Lemma nan_leb (x y : float) :
  PrimFloat.is_nan x = true -> PrimFloat.leb x y = false.
Proof.
  intros H. rewrite leb_spec, (is_nan_Prim2SF x H). reflexivity.
Qed.

Lemma ltb_nan (x y : float) :
  PrimFloat.is_nan y = true -> PrimFloat.ltb x y = false.
Proof.
  intros H. rewrite ltb_spec, (is_nan_Prim2SF y H).
  destruct (Prim2SF x) as [s|s| |s m e]; try reflexivity;
    destruct s; reflexivity.
Qed.

(** X12. An amount that is [NaN] passes both numeric gates: [NaN <= 0]
    and [balance < NaN] are false, so a transaction that [isValid()]
    accepts and whose amount is [NaN] is admitted to the pool whatever its
    sender holds. *)
Theorem addTransaction_admits_nan (ec : Elliptic)
        (number_to_string : float -> string)
        (tx : Doubles.Transaction.t) (bc : Doubles.Blockchain.t) :
  Doubles.Transaction.isValid number_to_string tx = Js.Ret true ->
  PrimFloat.is_nan (Doubles.Transaction.amount tx) = true ->
  Doubles.Blockchain.addTransaction number_to_string tx bc
  = (Js.Ret tt,
     Doubles.Blockchain.set_pendingTransactions bc
       (Doubles.Blockchain.pendingTransactions bc ++ [tx])).
Proof.
  intros Hv Hnan. unfold Doubles.Blockchain.addTransaction. run_js.
  rewrite Hv. simpl. rewrite (nan_leb _ _ Hnan).
  unfold Doubles.Blockchain.getBalanceOfAddress. run_js.
  rewrite (ltb_nan _ _ Hnan). reflexivity.
Qed.

(** The wallet ["04b2"] holds nothing on the ledger of [doubles_one_block];
    its signed transfer of [NaN] enters the pool. *)
Lemma addTransaction_admits_nan_witness :
  Doubles.Blockchain.getBalanceOfAddress (Some "04b2") doubles_one_block
  = (Js.Ret 0%float, doubles_one_block)
  /\ @Doubles.Blockchain.addTransaction toy_ec toy_number_to_string
       nan_transfer doubles_one_block
     = (Js.Ret tt,
        Doubles.Blockchain.set_pendingTransactions doubles_one_block
          (Doubles.Blockchain.pendingTransactions doubles_one_block
           ++ [nan_transfer])).
Proof.
  split; [vm_compute; reflexivity |].
  apply (addTransaction_admits_nan toy_ec toy_number_to_string
           nan_transfer doubles_one_block).
  - vm_compute. reflexivity.
  - vm_compute. reflexivity.
Defined.

(** X13. A [null] signature spends anyone's funds: a transaction whose
    signature field is [null] is admitted to the pool for any sender whose
    balance covers its positive amount, with no key involved. *)
Theorem addTransaction_admits_null_signature (ec : Elliptic)
        (tx : Main.Transaction.t) (bc : Main.Blockchain.t) (balance : Z) :
  Main.Transaction.signature tx = SigNull ->
  Main.Blockchain.getBalanceOfAddress (Main.Transaction.sender tx) bc
  = (Js.Ret balance, bc) ->
  0 < Main.Transaction.amount tx <= balance ->
  Main.Blockchain.addTransaction tx bc
  = (Js.Ret tt,
     Main.Blockchain.set_pendingTransactions bc
       (Main.Blockchain.pendingTransactions bc ++ [tx])).
Proof.
  intros Hsig Hb [Hpos Hle].
  rewrite getBalanceOfAddress_run in Hb. injection Hb as Hb.
  rewrite (addTransaction_run tx bc true (main_isValid_null_signature tx Hsig)).
  simpl. apply Z.leb_gt in Hpos. rewrite Hpos.
  rewrite Hb. apply Z.ltb_ge in Hle. rewrite Hle. reflexivity.
Qed.

Lemma addTransaction_admits_null_signature_witness :
  let theft := Main.Transaction.mk (Some "04a1") "04b2" 100 1700000005000 SigNull in
  @Main.Blockchain.addTransaction toy_ec theft ledger_one_block
  = (Js.Ret tt, Main.Blockchain.set_pendingTransactions ledger_one_block [theft]).
Proof.
  intros theft.
  apply (addTransaction_admits_null_signature toy_ec theft ledger_one_block 100).
  - reflexivity.
  - vm_compute. reflexivity.
  - simpl. lia.
Defined.

(** ** Signing *)

(** X14. Round trip of signing: with a library whose signatures verify
    under the signer's public identifier, [signTransaction] with the
    sender's key returns normally, changes the signature field only, leaves
    [calculateHash()] as it was, and the signed transaction is valid. *)
Theorem signTransaction_then_isValid (ec : Elliptic) (myKey : keypair)
        (tx : Main.Transaction.t) :
  sign_verify_roundtrip ec ->
  Main.Transaction.sender tx = Some (getPublic myKey) ->
  exists tx',
    Main.Transaction.signTransaction myKey tx = (Js.Ret tt, tx')
    /\ Main.Transaction.sender tx' = Main.Transaction.sender tx
    /\ Main.Transaction.recipient tx' = Main.Transaction.recipient tx
    /\ Main.Transaction.amount tx' = Main.Transaction.amount tx
    /\ Main.Transaction.timestamp tx' = Main.Transaction.timestamp tx
    /\ Main.Transaction.calculateHash tx' = Main.Transaction.calculateHash tx
    /\ Main.Transaction.isValid tx' = Js.Ret true.
Proof.
  intros Hrt Hs.
  destruct (main_signTransaction_spec myKey tx) as [_ Hsign].
  specialize (Hsign (eq_sym Hs)).
  eexists. split; [exact Hsign|]. repeat split.
  eapply main_sign_then_isValid; eauto.
Qed.

Lemma signTransaction_then_isValid_witness :
  exists tx',
    @Main.Transaction.signTransaction toy_ec "a1"
      (Main.Transaction.new 1700000005000 (Some "04a1") "address2" 100)
    = (Js.Ret tt, tx')
    /\ @Main.Transaction.isValid toy_ec tx' = Js.Ret true.
Proof.
  destruct (signTransaction_then_isValid toy_ec "a1"
              (Main.Transaction.new 1700000005000 (Some "04a1") "address2" 100)
              toy_ec_roundtrip eq_refl) as (tx' & Hs & _ & _ & _ & _ & _ & Hv).
  exists tx'. split; assumption.
Defined.

Lemma num_to_string_teens (a : Z) :
  0 <= a <= 9 -> Js.num_to_string (10 + a) = "1" ++ Js.num_to_string a.
Proof.
  intros H.
  assert (Hc : a = 0 \/ a = 1 \/ a = 2 \/ a = 3 \/ a = 4 \/ a = 5 \/ a = 6
               \/ a = 7 \/ a = 8 \/ a = 9) by lia.
  repeat (destruct Hc as [-> | Hc]; [reflexivity|]). subst a. reflexivity.
Qed.

(** X15. The hashed text has no separators, so a signature does not pin
    down the recipient and the amount: a transfer of a one-digit amount
    [a] to the recipient [r ++ "1"] and a transfer of [10 + a] to [r] from
    the same sender at the same time have the same [calculateHash()], and
    [isValid()] gives the same answer on both for the same signature. *)
Theorem calculateHash_recipient_amount_ambiguity (ec : Elliptic)
        (sender : option string) (r : string) (a timestamp : Z) (sig : sigval) :
  0 <= a <= 9 ->
  let tx1 := Main.Transaction.mk sender (r ++ "1") a timestamp sig in
  let tx2 := Main.Transaction.mk sender r (10 + a) timestamp sig in
  Main.Transaction.calculateHash tx1 = Main.Transaction.calculateHash tx2
  /\ Main.Transaction.isValid tx1 = Main.Transaction.isValid tx2.
Proof.
  intros Ha tx1 tx2.
  assert (Hh : Main.Transaction.calculateHash tx1 = Main.Transaction.calculateHash tx2).
  { unfold Main.Transaction.calculateHash, tx1, tx2.
    cbn [Main.Transaction.sender Main.Transaction.recipient
         Main.Transaction.amount Main.Transaction.timestamp].
    rewrite (num_to_string_teens a Ha). f_equal. f_equal.
    rewrite !string_app_assoc. reflexivity. }
  split; [exact Hh|].
  unfold Main.Transaction.isValid. rewrite Hh. reflexivity.
Qed.

(** A signature made for 5 to ["address21"] validates 15 to ["address2"]. *)
Lemma calculateHash_recipient_amount_ambiguity_witness :
  let signed := snd (@Main.Transaction.signTransaction toy_ec "a1"
                       (Main.Transaction.new 1700000005000 (Some "04a1")
                                             ("address2" ++ "1") 5)) in
  let moved := Main.Transaction.mk (Some "04a1") "address2" (10 + 5) 1700000005000
                                   (Main.Transaction.signature signed) in
  @Main.Transaction.isValid toy_ec signed = Js.Ret true
  /\ @Main.Transaction.isValid toy_ec moved = Js.Ret true.
Proof.
  intros signed moved.
  assert (Hv : @Main.Transaction.isValid toy_ec signed = Js.Ret true)
    by (vm_compute; reflexivity).
  split; [exact Hv|].
  rewrite <- Hv.
  symmetry.
  apply (proj2 (calculateHash_recipient_amount_ambiguity toy_ec (Some "04a1")
                  "address2" 5 1700000005000
                  (Main.Transaction.signature signed) ltac:(lia))).
Defined.

(** ** What the audit accepts *)

Section Audit.
Context {ec : Elliptic}.

Lemma check_blocks_audited (previousBlock : Main.Block.t) (rest : list Main.Block.t) :
  Main.Blockchain.check_blocks previousBlock rest = Js.Ret true
  <-> audited previousBlock rest.
Proof.
  revert previousBlock. induction rest as [|cur rest IH]; intros prev.
  - simpl. split; [constructor | reflexivity].
  - cbn [Main.Blockchain.check_blocks].
    destruct (Main.Block.hasValidTransactions cur) as [[|]| |] eqn:Hv; cbn [Js.obind negb].
    + destruct (String.eqb_spec (Main.Block.hash cur) (Main.Block.calculateHash cur))
        as [Hh|Hh]; cbn [negb].
      * destruct (String.eqb_spec (Main.Block.previousHash cur) (Main.Block.hash prev))
          as [Hp|Hp]; cbn [negb].
        -- rewrite IH. split.
           ++ intros H. constructor; auto.
           ++ intros H. inversion H; auto.
        -- split; [discriminate | intros H; inversion H; contradiction].
      * split; [discriminate | intros H; inversion H; contradiction].
    + split; [discriminate | intros H; inversion H; congruence].
    + split; [discriminate | intros H; inversion H; congruence].
    + split; [discriminate | intros H; inversion H; congruence].
Qed.

Lemma isChainValid_true_iff (now : Z) (bc : Main.Blockchain.t) :
  Main.Blockchain.isChainValid now bc = (Js.Ret true, bc)
  <-> exists genesis rest,
        Main.Blockchain.chain bc = genesis :: rest
        /\ Main.Block.json genesis
           = Main.Block.json (Main.Blockchain.createGenesisBlock now)
        /\ audited genesis rest.
Proof.
  unfold Main.Blockchain.isChainValid, Js.bind, Js.get. cbv beta iota.
  destruct (Main.Blockchain.chain bc) as [|g rest].
  - split; [discriminate | intros (g & r & H & _); discriminate].
  - destruct (String.eqb_spec (Main.Block.json (Main.Blockchain.createGenesisBlock now))
                              (Main.Block.json g)) as [E|E]; cbn [negb].
    + unfold Js.lift. split.
      * intros H. injection H as H. apply check_blocks_audited in H.
        exists g, rest. auto.
      * intros (g' & r' & Hc & _ & Ha). injection Hc as <- <-.
        apply check_blocks_audited in Ha. rewrite Ha. reflexivity.
    + unfold Js.ret. split; [discriminate|].
      intros (g' & r' & Hc & Hj & _). injection Hc as <- <-. congruence.
Qed.

Lemma audited_drop (previousBlock b : Main.Block.t) (pre post : list Main.Block.t) :
  audited previousBlock (pre ++ b :: post) ->
  audited previousBlock (pre ++ drop_transactions b :: post).
Proof.
  revert previousBlock. induction pre as [|p pre IH]; intros prev H; simpl in *.
  - inversion H as [|? ? ? Hv Hh Hp Hrest]; subst.
    constructor.
    + reflexivity.
    + exact Hh.
    + exact Hp.
    + inversion Hrest as [|? ? ? Hv' Hh' Hp' Hrest']; subst; constructor; assumption.
  - inversion H; subst. constructor; auto.
Qed.

End Audit.

(** X16. [isChainValid()] answers true exactly when the chain is not
    empty, its first block has the JSON form of a genesis block built at
    the reading of the clock, and every later block has valid
    transactions, stores its own [calculateHash()] and names the stored
    hash of the block before it. The first block's own hash is never
    recomputed. *)
Theorem isChainValid_accepts_exactly (ec : Elliptic) (now : Z)
        (bc : Main.Blockchain.t) :
  Main.Blockchain.isChainValid now bc = (Js.Ret true, bc)
  <-> exists genesis rest,
        Main.Blockchain.chain bc = genesis :: rest
        /\ Main.Block.json genesis
           = Main.Block.json (Main.Blockchain.createGenesisBlock now)
        /\ audited genesis rest.
Proof. apply isChainValid_true_iff. Qed.

(** X17. The audit does not see transactions disappear: the block digest
    leaves the transactions out, so on a chain that [isChainValid()]
    accepts, emptying the transaction list of any block after the first
    gives a chain that it accepts as well. *)
Theorem isChainValid_blind_to_erasure (ec : Elliptic) (now : Z)
        (bc : Main.Blockchain.t) (genesis b : Main.Block.t)
        (pre post : list Main.Block.t) :
  Main.Blockchain.chain bc = genesis :: (pre ++ b :: post)%list ->
  Main.Blockchain.isChainValid now bc = (Js.Ret true, bc) ->
  let erased := Main.Blockchain.set_chain bc
                  (genesis :: pre ++ drop_transactions b :: post) in
  Main.Blockchain.isChainValid now erased = (Js.Ret true, erased).
Proof.
  intros Hc Hv erased.
  apply isChainValid_true_iff in Hv. destruct Hv as (g & rest & Hc' & Hj & Ha).
  rewrite Hc in Hc'. injection Hc' as <- <-.
  apply isChainValid_true_iff. exists genesis, (pre ++ drop_transactions b :: post)%list.
  split; [reflexivity|]. split; [exact Hj|]. now apply audited_drop.
Qed.

(** The ledger holding the signed transfer is accepted at the clock of its
    construction, and still is once the transfer has been erased, when
    ["address2"] has lost its 100. *)
Lemma isChainValid_blind_to_erasure_witness :
  let erased := Main.Blockchain.set_chain ledger_signed_block
                  [Main.Blockchain.createGenesisBlock 1700000000000;
                   drop_transactions signed_block] in
  @Main.Blockchain.isChainValid toy_ec 1700000000000 erased = (Js.Ret true, erased)
  /\ Main.Blockchain.getBalanceOfAddress (Some "address2") ledger_signed_block
     = (Js.Ret 100, ledger_signed_block)
  /\ Main.Blockchain.getBalanceOfAddress (Some "address2") erased
     = (Js.Ret 0, erased).
Proof.
  intros erased. split; [| split; vm_compute; reflexivity].
  apply (isChainValid_blind_to_erasure toy_ec 1700000000000 ledger_signed_block
           (Main.Blockchain.createGenesisBlock 1700000000000) signed_block [] []).
  - reflexivity.
  - vm_compute. reflexivity.
Defined.

(** ** Ledgers reached through the two mutators *)

Lemma last_cons_default {A : Type} (x d d' : A) (l : list A) :
  last (x :: l) d = last (x :: l) d'.
Proof.
  revert x. induction l as [|y l IH]; intros x; [reflexivity|].
  change (last (y :: l) d = last (y :: l) d'). apply IH.
Qed.

Lemma latest_is_last (g : Main.Block.t) (rest : list Main.Block.t) :
  nth_error (g :: rest) (List.length (g :: rest) - 1) = Some (last rest g).
Proof.
  revert g. induction rest as [|b rest IH]; intros g; [reflexivity|].
  specialize (IH b). simpl in *. rewrite Nat.sub_0_r in *.
  destruct rest as [|c rest]; [reflexivity|].
  rewrite IH. f_equal. apply (last_cons_default c b g rest).
Qed.

Lemma linked_chain_snoc (g b : Main.Block.t) (rest : list Main.Block.t) :
  linked_chain g rest ->
  Main.Block.previousHash b = Main.Block.hash (last rest g) ->
  Main.Block.meets_target 4 (Main.Block.hash b) = true ->
  Main.Block.index b = None ->
  ends_with_reward (Main.Block.transactions b) ->
  linked_chain g (rest ++ [b]).
Proof.
  intros Hm. revert b. induction Hm as [prev | prev cur rest Hp Ht Hi Hs Hm IH];
    intros b Hb Htb Hib Hsb; simpl.
  - constructor; auto. constructor.
  - constructor; auto. apply IH; auto.
    destruct rest as [|c rest]; [exact Hb|].
    rewrite (last_cons_default c cur prev rest). exact Hb.
Qed.

(** X18. On every ledger that [addTransaction] and
    [minePendingTransactions] lead to from [new Blockchain()]: the chain
    still starts with the genesis block the ledger was built with; every
    later block names the stored hash of the block before it, has a hash
    with four leading ['1'], has no index, and ends with a reward of 100
    from the [null] sender; [difficulty] is 4 and [mineReward] is 100. *)
Theorem reachable_chain_invariant (ec : Elliptic) (t0 : Z)
        (bc : Main.Blockchain.t) :
  reachable t0 bc ->
  Main.Blockchain.difficulty bc = 4%nat
  /\ Main.Blockchain.mineReward bc = 100
  /\ (exists rest,
         Main.Blockchain.chain bc = Main.Blockchain.createGenesisBlock t0 :: rest
         /\ linked_chain (Main.Blockchain.createGenesisBlock t0) rest).
Proof.
  induction 1 as [| tx bc bc' o _ IH Hadd
                  | fuel now_tx now_block addr bc bc' o _ IH Hmine Ho].
  - split; [reflexivity | split; [reflexivity |]].
    exists []. split; [reflexivity | constructor].
  - destruct IH as (Hd & Hr & Hc).
    destruct (addTransaction_cases tx bc) as [[o' H']|(_ & _ & _ & H')];
      rewrite H' in Hadd; injection Hadd as _ <-; simpl; auto.
  - destruct IH as (Hd & Hr & (rest & Hc & Hm)).
    destruct (minePendingTransactions_cases fuel now_tx now_block addr bc)
      as [(o' & _ & H' & [->|Hempty])|(latest & mined & Hl & Hmined & H')].
    + rewrite H' in Hmine. injection Hmine as <- _. contradiction.
    + rewrite Hc in Hempty. discriminate.
    + rewrite H' in Hmine. injection Hmine as _ <-. simpl.
      split; [exact Hd | split; [exact Hr |]].
      exists (rest ++ [mined])%list. split; [now rewrite Hc|].
      unfold Main.Blockchain.getLatestBlock in Hl. rewrite Hc, latest_is_last in Hl.
      injection Hl as <-.
      pose proof (mineBlock_frame _ _ _ _ Hmined) as (Hi & Hprev & Htx & _).
      pose proof (mineBlock_meets_target _ _ _ _ Hmined) as Ht.
      simpl in Hi, Hprev, Htx. rewrite Hd in Ht.
      apply linked_chain_snoc; auto.
      exists (Main.Blockchain.pendingTransactions bc), now_tx, addr.
      rewrite Htx. unfold main_reward. rewrite Hr. reflexivity.
Qed.

(** The ledger reached by mining a block, submitting the signed transfer
    of 100, mining again and submitting a transfer of 30: two blocks after
    the genesis block, the second holding the transfer before its reward,
    and one transaction waiting in the pool. *)
Lemma reachable_chain_invariant_witness :
  List.length (Main.Blockchain.chain ledger_two_blocks_pending) = 3%nat
  /\ Main.Blockchain.pendingTransactions ledger_two_blocks_pending
     = [second_transfer]
  /\ Main.Blockchain.difficulty ledger_two_blocks_pending = 4%nat
  /\ Main.Blockchain.mineReward ledger_two_blocks_pending = 100
  /\ (exists rest,
         Main.Blockchain.chain ledger_two_blocks_pending
         = Main.Blockchain.createGenesisBlock 1700000000000 :: rest
         /\ linked_chain (Main.Blockchain.createGenesisBlock 1700000000000) rest).
Proof.
  split; [reflexivity | split; [reflexivity |]].
  apply (reachable_chain_invariant toy_ec 1700000000000 ledger_two_blocks_pending).
  apply (@reachable_addTransaction toy_ec 1700000000000 second_transfer
           ledger_two_blocks ledger_two_blocks_pending (Js.Ret tt));
    [| vm_compute; reflexivity].
  apply (@reachable_minePendingTransactions toy_ec 1700000000000
           1 1700000095900 1700000095941 "04a1"
           (Main.Blockchain.set_pendingTransactions ledger_one_block [signed_transfer])
           ledger_two_blocks (Js.Ret tt));
    [| vm_compute; reflexivity | discriminate].
  apply (@reachable_addTransaction toy_ec 1700000000000 signed_transfer
           ledger_one_block
           (Main.Blockchain.set_pendingTransactions ledger_one_block [signed_transfer])
           (Js.Ret tt));
    [| vm_compute; reflexivity].
  apply (@reachable_minePendingTransactions toy_ec 1700000000000
           1 1700000004100 1700000004157 "04a1"
           (Main.Blockchain.new 1700000000000) ledger_one_block (Js.Ret tt));
    [apply reachable_new | vm_compute; reflexivity | discriminate].
Defined.

(** ** The second copy: a ledger that cannot move *)

Lemma object_fourth_number (p1 p2 p3 key n p5 p6 : string) :
  Json.object [p1; p2; p3; Json.prop key n; p5; p6]
  = ((("{" ++ p1 ++ "," ++ p2 ++ "," ++ p3 ++ ",") ++ Json.str key) ++ ":")
      ++ (n ++ String "," (p5 ++ "," ++ p6 ++ "}")).
Proof.
  unfold Json.object, Json.prop. cbn [Json.commas].
  repeat rewrite string_app_assoc. reflexivity.
Qed.

Lemma alt_genesis_json_inj (t t' : Z) :
  Alt.Block.json (Alt.Blockchain.createGenesisBlock t)
  = Alt.Block.json (Alt.Blockchain.createGenesisBlock t') ->
  t = t'.
Proof.
  unfold Alt.Block.json, Alt.Blockchain.createGenesisBlock, Alt.Block.new.
  cbn [Alt.Block.previousHash Alt.Block.transactions Alt.Block.timestamp
       Alt.Block.hash Alt.Block.nonce Alt.Block.index map].
  rewrite !object_fourth_number. intros H.
  apply string_app_inv_head in H.
  apply no_comma_split in H; auto using num_to_string_no_comma.
  now apply num_to_string_inj.
Qed.

Section AltLedger.
Context {ec : Elliptic}.

(** [addTransaction] of the second copy writes the pool only. *)
Lemma alt_addTransaction_keeps (tx : Alt.Transaction.t) (bc bc' : Alt.Blockchain.t)
      (o : Js.outcome unit) :
  Alt.Blockchain.addTransaction tx bc = (o, bc') ->
  Alt.Blockchain.chain bc' = Alt.Blockchain.chain bc
  /\ Alt.Blockchain.difficulty bc' = Alt.Blockchain.difficulty bc
  /\ Alt.Blockchain.mineReward bc' = Alt.Blockchain.mineReward bc.
Proof.
  unfold Alt.Blockchain.addTransaction. run_js.
  destruct (Alt.Transaction.isValid tx) as [[|]| |]; simpl;
    try (intros H; injection H as _ <-; auto).
  destruct (Alt.Transaction.amount tx <=? 0);
    [intros H; injection H as _ <-; auto|].
  unfold Alt.Blockchain.getBalanceOfAddress. run_js.
  destruct (_ <? _); intros H; injection H as _ <-; auto.
Qed.

Lemma alt_isChainValid_genesis_only (t0 now : Z) (bc : Alt.Blockchain.t) :
  Alt.Blockchain.chain bc = [Alt.Blockchain.createGenesisBlock t0] ->
  Alt.Blockchain.isChainValid now bc = (Js.Ret (now =? t0), bc).
Proof.
  intros Hc.
  unfold Alt.Blockchain.isChainValid, Js.bind, Js.get. cbv beta iota. rewrite Hc.
  destruct (String.eqb_spec (Alt.Block.json (Alt.Blockchain.createGenesisBlock now))
                            (Alt.Block.json (Alt.Blockchain.createGenesisBlock t0)))
    as [E|E]; cbn [negb].
  - apply alt_genesis_json_inj in E. subst. rewrite Z.eqb_refl. reflexivity.
  - destruct (Z.eqb_spec now t0) as [->|_]; [contradiction | reflexivity].
Qed.

End AltLedger.

(** X19. The chain of the second copy cannot move: whatever calls of
    [addTransaction] and [minePendingTransactions] are made on a new
    ledger, the chain is the genesis block alone and the parameters are as
    built, every balance is 0 and every wallet history empty, and
    [isChainValid()] answers true exactly at the clock reading of the
    construction. *)
Theorem alt_reachable_chain_is_inert (ec : Elliptic) (t0 : Z)
        (bc : Alt.Blockchain.t) :
  alt_reachable t0 bc ->
  Alt.Blockchain.chain bc = [Alt.Blockchain.createGenesisBlock t0]
  /\ Alt.Blockchain.difficulty bc = 4%nat
  /\ Alt.Blockchain.mineReward bc = 100
  /\ (forall a, Alt.Blockchain.getBalanceOfAddress a bc = (Js.Ret 0, bc))
  /\ (forall a, Alt.Blockchain.getAllTransactionForWallet a bc = (Js.Ret [], bc))
  /\ (forall now, Alt.Blockchain.isChainValid now bc = (Js.Ret (now =? t0), bc)).
Proof.
  intros Hreach.
  assert (Hinv : Alt.Blockchain.chain bc = [Alt.Blockchain.createGenesisBlock t0]
                 /\ Alt.Blockchain.difficulty bc = 4%nat
                 /\ Alt.Blockchain.mineReward bc = 100).
  { induction Hreach as [| tx bc bc' o _ IH Hadd
                         | fuel now_tx now_block addr bc bc' o _ IH Hmine Ho].
    - split; [reflexivity | split; reflexivity].
    - destruct IH as (Hc & Hd & Hr).
      destruct (alt_addTransaction_keeps tx bc bc' o Hadd) as (Hc' & Hd' & Hr').
      rewrite Hc', Hd', Hr'. auto.
    - destruct IH as (Hc & Hd & Hr).
      destruct (alt_minePendingTransactions_raises fuel now_tx now_block addr bc)
        as [e H'].
      rewrite H' in Hmine. injection Hmine as _ <-. simpl. auto. }
  destruct Hinv as (Hc & Hd & Hr).
  split; [exact Hc | split; [exact Hd | split; [exact Hr |]]].
  split; [| split].
  - intros a. unfold Alt.Blockchain.getBalanceOfAddress. run_js. rewrite Hc.
    reflexivity.
  - intros a. unfold Alt.Blockchain.getAllTransactionForWallet. run_js. rewrite Hc.
    reflexivity.
  - intros now. now apply alt_isChainValid_genesis_only.
Qed.

(** A new ledger of the second copy after a call of
    [minePendingTransactions], which raises, and the submission of a
    transfer, which is declined. *)
Lemma alt_reachable_chain_is_inert_witness :
  let mined := snd (Alt.Blockchain.minePendingTransactions
                      10 1700000004100 1700000004157 "04a1"
                      (Alt.Blockchain.new 1700000000000)) in
  let bc := snd (@Alt.Blockchain.addTransaction toy_ec
                   (Alt.Transaction.new 1700000005000 (Some "04a1") "address2" 100)
                   mined) in
  Alt.Blockchain.chain bc = [Alt.Blockchain.createGenesisBlock 1700000000000]
  /\ Alt.Blockchain.getBalanceOfAddress (Some "04a1") bc = (Js.Ret 0, bc)
  /\ @Alt.Blockchain.isChainValid toy_ec 1700000000001 bc = (Js.Ret false, bc).
Proof.
  intros mined bc.
  assert (Hm : @alt_reachable toy_ec 1700000000000 mined).
  { apply (@alt_reachable_minePendingTransactions toy_ec 1700000000000
             10 1700000004100 1700000004157 "04a1"
             (Alt.Blockchain.new 1700000000000) mined
             (Js.Throw (Js.TypeError "Cannot read properties of null"))).
    - apply alt_reachable_new.
    - reflexivity.
    - discriminate. }
  assert (Hr : @alt_reachable toy_ec 1700000000000 bc).
  { apply (@alt_reachable_addTransaction toy_ec 1700000000000
             (Alt.Transaction.new 1700000005000 (Some "04a1") "address2" 100)
             mined bc (Js.Ret tt)).
    - exact Hm.
    - reflexivity. }
  destruct (alt_reachable_chain_is_inert toy_ec 1700000000000 bc Hr)
    as (Hc & _ & _ & Hb & _ & Hv).
  split; [exact Hc | split; [exact (Hb (Some "04a1")) | exact (Hv 1700000000001)]].
Defined.

(** ** The whole of [src/main.js] *)

Lemma bind_ret_inv {S A B : Type} (m : Js.M S A) (k : A -> Js.M S B)
      (s s' : S) (b : B) :
  Js.bind m k s = (Js.Ret b, s') ->
  exists a s1, m s = (Js.Ret a, s1) /\ k a s1 = (Js.Ret b, s').
Proof.
  unfold Js.bind. destruct (m s) as [[a| |] s1]; try discriminate.
  intros H. exists a, s1. auto.
Qed.

Ltac ledger_norm :=
  cbn [Main.Blockchain.chain Main.Blockchain.new Main.Blockchain.difficulty
       Main.Blockchain.pendingTransactions Main.Blockchain.mineReward
       Main.Blockchain.set_pendingTransactions app map sumZ fold_right] in *.

Section MainScript.
Context {ec : Elliptic}.

Lemma net_reward_to (a addr : string) (now amount : Z) :
  net (Some a) (Main.Transaction.new now None addr amount)
  = if String.eqb addr a then amount else 0.
Proof. unfold net. simpl. destruct (String.eqb addr a); lia. Qed.

Lemma net_outgoing (a recipient : string) (now amount : Z) (sig : sigval) :
  recipient <> a ->
  net (Some a) (Main.Transaction.mk (Some a) recipient amount now sig) = - amount.
Proof.
  intros Hne. unfold net. simpl. rewrite String.eqb_refl.
  apply String.eqb_neq in Hne. rewrite Hne. lia.
Qed.

(** Signing with one's own key and submitting: admitted when the balance
    on the chain covers the positive amount. *)
Lemma sign_and_add_run (myKey : keypair) (now : Z) (recipient : string)
      (amount : Z) (bc : Main.Blockchain.t) :
  sign_verify_roundtrip ec ->
  0 < amount <= balance_sum (Some (getPublic myKey)) (Main.Blockchain.chain bc) ->
  exists sig,
    sign_and_add myKey now recipient amount bc
    = (Js.Ret tt,
       Main.Blockchain.set_pendingTransactions bc
         (Main.Blockchain.pendingTransactions bc
          ++ [Main.Transaction.mk (Some (getPublic myKey)) recipient amount now sig])).
Proof.
  intros Hrt [Hpos Hle].
  pose (tx0 := Main.Transaction.new now (Some (getPublic myKey)) recipient amount).
  destruct (main_signTransaction_spec myKey tx0) as [_ Hsign].
  specialize (Hsign eq_refl).
  unfold sign_and_add, Js.bind, Js.lift. fold tx0. rewrite Hsign. cbn [Js.obind].
  set (tx1 := Main.Transaction.set_signature tx0 _).
  assert (Hv : Main.Transaction.isValid tx1 = Js.Ret true)
    by (eapply main_sign_then_isValid; eauto).
  rewrite (addTransaction_run tx1 bc true Hv). cbn [negb].
  change (Main.Transaction.amount tx1) with amount.
  change (Main.Transaction.sender tx1) with (Some (getPublic myKey)).
  rewrite balance_chain_sum.
  apply Z.leb_gt in Hpos. rewrite Hpos.
  replace (0 + balance_sum (Some (getPublic myKey)) (Main.Blockchain.chain bc) <? amount)
    with false by (symmetry; apply Z.ltb_ge; lia).
  eexists. reflexivity.
Qed.

End MainScript.

(** X20. What [src/main.js] prints. With a library whose signatures
    verify, and a wallet address that is neither ['address1'] nor
    ['address2'], a run of the script that reaches its end prints the
    balance 150 (three rewards of 100, less the transfers of 100 and 50),
    and prints 'No' to 'Is chain valid?' whenever the clock has moved
    between [new Blockchain()] and [isChainValid()]. *)
Theorem main_js_output (ec : Elliptic) (fuel : nat) (myKey : keypair)
        (t0 t1 t2 t3 t4 t5 t6 t7 t8 t9 : Z)
        (balance : Z) (answer : string) (bc : Main.Blockchain.t) :
  sign_verify_roundtrip ec ->
  getPublic myKey <> "address1" ->
  getPublic myKey <> "address2" ->
  main_js fuel myKey t0 t1 t2 t3 t4 t5 t6 t7 t8 t9 = (Js.Ret (balance, answer), bc) ->
  balance = 150 /\ (t9 <> t0 -> answer = "No").
Proof.
  intros Hrt Hn1 Hn2 Hrun. unfold main_js in Hrun.
  set (A := getPublic myKey) in *.
  apply bind_ret_inv in Hrun. destruct Hrun as ([] & bc1 & Hm1 & Hrun).
  pose proof (minePendingTransactions_balance _ _ _ _ _ _ (Some A) Hm1) as Hb1.
  apply main_minePendingTransactions_inv in Hm1.
  destruct Hm1 as (l1 & m1 & _ & _ & ->).
  unfold main_reward in Hb1. rewrite net_reward_to, String.eqb_refl in Hb1.
  change (balance_sum (Some A) (Main.Blockchain.chain (Main.Blockchain.new t0)))
    with 0 in Hb1.
  ledger_norm.
  apply bind_ret_inv in Hrun. destruct Hrun as ([] & bc2 & Hs1 & Hrun).
  match type of Hs1 with
  | sign_and_add _ _ _ _ ?b = _ =>
      destruct (sign_and_add_run myKey t3 "address2" 100 b Hrt) as [sig1 Hs1'];
        [ledger_norm; fold A; lia|]
  end.
  fold A in Hs1'. rewrite Hs1' in Hs1. injection Hs1 as <-. clear Hs1'.
  apply bind_ret_inv in Hrun. destruct Hrun as ([] & bc3 & Hm2 & Hrun).
  pose proof (minePendingTransactions_balance _ _ _ _ _ _ (Some A) Hm2) as Hb2.
  apply main_minePendingTransactions_inv in Hm2.
  destruct Hm2 as (l2 & m2 & _ & _ & ->).
  unfold main_reward in Hb2. rewrite net_reward_to, String.eqb_refl in Hb2.
  ledger_norm.
  rewrite net_outgoing in Hb2 by (intros E; apply Hn2; now rewrite E).
  rewrite Hb1 in Hb2.
  apply bind_ret_inv in Hrun. destruct Hrun as ([] & bc4 & Hs2 & Hrun).
  match type of Hs2 with
  | sign_and_add _ _ _ _ ?b = _ =>
      destruct (sign_and_add_run myKey t6 "address1" 50 b Hrt) as [sig2 Hs2'];
        [ledger_norm; fold A; lia|]
  end.
  fold A in Hs2'. rewrite Hs2' in Hs2. injection Hs2 as <-. clear Hs2'.
  apply bind_ret_inv in Hrun. destruct Hrun as ([] & bc5 & Hm3 & Hrun).
  pose proof (minePendingTransactions_balance _ _ _ _ _ _ (Some A) Hm3) as Hb3.
  apply main_minePendingTransactions_inv in Hm3.
  destruct Hm3 as (l3 & m3 & _ & _ & ->).
  unfold main_reward in Hb3. rewrite net_reward_to, String.eqb_refl in Hb3.
  ledger_norm.
  rewrite net_outgoing in Hb3 by (intros E; apply Hn1; now rewrite E).
  rewrite Hb2 in Hb3.
  apply bind_ret_inv in Hrun. destruct Hrun as (bal & bc6 & Hbal & Hrun).
  rewrite getBalanceOfAddress_sum in Hbal. injection Hbal as <- <-.
  apply bind_ret_inv in Hrun. destruct Hrun as (valid & bc7 & Hvalid & Hrun).
  unfold Js.ret in Hrun. injection Hrun as <- <- <-.
  ledger_norm.
  split.
  - rewrite Hb3. reflexivity.
  - intros Hne.
    erewrite isChainValid_stale_genesis in Hvalid;
      [| ledger_norm; reflexivity | exact Hne].
    injection Hvalid as <- _. reflexivity.
Qed.

(** The script with the key ["a1"] of [toy_ec]: it reaches its end and
    prints 150 and 'No'. *)
Lemma main_js_output_witness :
  exists bc balance answer,
    @main_js toy_ec 1 "a1"
      1700000000000 1700000004100 1700000004157 1700000005000
      1700000095900 1700000095941 1700000096000
      1700000111700 1700000111715 1700000120000
    = (Js.Ret (balance, answer), bc)
    /\ balance = 150 /\ answer = "No".
Proof.
  eexists. eexists. eexists. split.
  - vm_compute. reflexivity.
  - destruct (main_js_output toy_ec 1%nat "a1"
                1700000000000 1700000004100 1700000004157 1700000005000
                1700000095900 1700000095941 1700000096000
                1700000111700 1700000111715 1700000120000
                _ _ _ toy_ec_roundtrip ltac:(discriminate) ltac:(discriminate)
                ltac:(vm_compute; reflexivity)) as [Hbalance Hanswer].
    split; [exact Hbalance | apply Hanswer; discriminate].
Defined.

(** ** The search of the second copy *)



(** ** Tampering the audit does see *)

Section Tamper.
Context {ec : Elliptic}.

Lemma audited_at (g b : Main.Block.t) (pre post : list Main.Block.t) :
  audited g (pre ++ b :: post) ->
  Main.Block.hash b = Main.Block.calculateHash b
  /\ Main.Block.previousHash b = Main.Block.hash (last pre g).
Proof.
  revert g. induction pre as [|p pre IH]; intros g H; simpl in H.
  - inversion H; subst. auto.
  - inversion H as [|? ? ? _ _ _ Hrest]; subst. apply IH in Hrest.
    destruct Hrest as [Hh Hp]. split; [exact Hh|].
    rewrite Hp. f_equal. destruct pre as [|c pre]; [reflexivity|].
    apply (last_cons_default c p g pre).
Qed.

Lemma isChainValid_state (now : Z) (bc : Main.Blockchain.t) :
  Main.Blockchain.isChainValid now bc
  = (fst (Main.Blockchain.isChainValid now bc), bc).
Proof.
  unfold Main.Blockchain.isChainValid, Js.bind, Js.get. cbv beta iota.
  destruct (Main.Blockchain.chain bc) as [|g rest]; [reflexivity|].
  destruct (negb _); reflexivity.
Qed.

End Tamper.

(** X22. Tampering with the links is seen: on a chain that
    [isChainValid()] accepts, replacing the stored [hash] or the
    [previousHash] of a block after the first by another value, the rest
    of the block and of the chain being kept, gives a chain on which
    [isChainValid()] no longer answers true. *)
Theorem isChainValid_sees_link_tampering (ec : Elliptic) (now : Z)
        (bc : Main.Blockchain.t) (genesis b b' : Main.Block.t)
        (pre post : list Main.Block.t) :
  Main.Blockchain.chain bc = genesis :: (pre ++ b :: post)%list ->
  Main.Blockchain.isChainValid now bc = (Js.Ret true, bc) ->
  Main.Block.index b' = Main.Block.index b ->
  Main.Block.timestamp b' = Main.Block.timestamp b ->
  Main.Block.nonce b' = Main.Block.nonce b ->
  (Main.Block.previousHash b' <> Main.Block.previousHash b
   \/ (Main.Block.previousHash b' = Main.Block.previousHash b
       /\ Main.Block.hash b' <> Main.Block.hash b)) ->
  fst (Main.Blockchain.isChainValid now
         (Main.Blockchain.set_chain bc (genesis :: pre ++ b' :: post)))
  <> Js.Ret true.
Proof.
  intros Hc Hv Hi Ht Hn Htamper Hstill.
  apply isChainValid_true_iff in Hv. destruct Hv as (g & rest & Hc' & _ & Ha).
  rewrite Hc in Hc'. injection Hc' as <- <-.
  apply audited_at in Ha. destruct Ha as [Hh Hp].
  set (bc' := Main.Blockchain.set_chain bc (genesis :: pre ++ b' :: post)) in *.
  assert (Hv' : Main.Blockchain.isChainValid now bc' = (Js.Ret true, bc')).
  { rewrite isChainValid_state, Hstill. reflexivity. }
  apply isChainValid_true_iff in Hv'. destruct Hv' as (g' & rest' & Hc' & _ & Ha').
  simpl in Hc'. injection Hc' as <- <-.
  apply audited_at in Ha'. destruct Ha' as [Hh' Hp'].
  destruct Htamper as [Hprev | [Hprev Hhash]].
  - congruence.
  - apply Hhash. rewrite Hh', Hh. unfold Main.Block.calculateHash.
    now rewrite Hi, Hprev, Ht, Hn.
Qed.

(** Overwriting the stored hash of the signed block of the accepted
    ledger. *)
Lemma isChainValid_sees_link_tampering_witness :
  let tampered := Main.Block.set_hash signed_block "1111" in
  fst (@Main.Blockchain.isChainValid toy_ec 1700000000000
         (Main.Blockchain.set_chain ledger_signed_block
            [Main.Blockchain.createGenesisBlock 1700000000000; tampered]))
  <> Js.Ret true.
Proof.
  intros tampered.
  apply (isChainValid_sees_link_tampering toy_ec 1700000000000 ledger_signed_block
           (Main.Blockchain.createGenesisBlock 1700000000000)
           signed_block tampered [] []).
  - reflexivity.
  - vm_compute. reflexivity.
  - reflexivity.
  - reflexivity.
  - reflexivity.
  - right. split; [reflexivity | vm_compute; discriminate].
Defined.
